(** * A shallow embedding of [bot.py]: the per-user conversation context,
      the content encoder, the completion client and the document/text
      handlers, with the properties of the repository's specification. *)

From Stdlib Require Import ZArith NArith List Lia.
From Stdlib Require Import Strings.String Strings.Ascii Strings.Byte.
From Stdlib Require Import Init.Byte.
From stdpp Require Import base option list gmap.

Set Warnings "-register-all".
Local Open Scope Z_scope.

(** ** Python values used by the bot *)

(** A Python [str] is a sequence of Unicode code points; [len], slicing and
    [startswith] work on code points, so a string is a list of them. *)
Definition char := N.
Definition pystr := list char.

(** A Python [bytes] object. *)
Definition pybytes := list byte.

Module Utf8.

(** The decoder reads one byte at a time.  Between characters it is in
    [Start]; inside a multi-byte sequence it remembers how many
    continuation bytes are still due, the bits gathered so far and the
    range allowed for the next byte (the first continuation byte of the
    leads E0, ED, F0 and F4 has a narrower range than 80..BF). *)
Inductive state :=
| Start
| Need (remaining : nat) (acc : N) (lo hi : N).

(** One decoded item: a code point, or one ill-formed run of bytes
    (what the codec hands to its error handler). *)
Definition item := option char.

Definition in_range (lo hi b : N) : bool := ((lo <=? b) && (b <=? hi))%N.

Definition lead (b : N) : list item * state :=
  if (b <? 0x80)%N then ([Some b], Start)
  else if in_range 0xC2 0xDF b then ([], Need 1 (N.land b 0x1F) 0x80 0xBF)
  else if (b =? 0xE0)%N then ([], Need 2 (N.land b 0x0F) 0xA0 0xBF)
  else if (b =? 0xED)%N then ([], Need 2 (N.land b 0x0F) 0x80 0x9F)
  else if in_range 0xE1 0xEF b then ([], Need 2 (N.land b 0x0F) 0x80 0xBF)
  else if (b =? 0xF0)%N then ([], Need 3 (N.land b 0x07) 0x90 0xBF)
  else if (b =? 0xF4)%N then ([], Need 3 (N.land b 0x07) 0x80 0x8F)
  else if in_range 0xF1 0xF3 b then ([], Need 3 (N.land b 0x07) 0x80 0xBF)
  else ([None], Start).

Definition feed (st : state) (b : N) : list item * state :=
  match st with
  | Start => lead b
  | Need n acc lo hi =>
      if in_range lo hi b then
        let acc' := (acc * 64 + N.land b 0x3F)%N in
        match n with
        | S (S _ as n') => ([], Need n' acc' 0x80 0xBF)
        | _ => ([Some acc'], Start)
        end
      else
        (* the run read so far is ill-formed; [b] starts afresh *)
        let '(out, st') := lead b in (None :: out, st')
  end.

Definition finish (st : state) : list item :=
  match st with
  | Start => []
  | Need _ _ _ _ => [None]       (* unexpected end of data *)
  end.

Fixpoint run (st : state) (bs : pybytes) : list item :=
  match bs with
  | [] => finish st
  | b :: rest =>
      let '(out, st') := feed st (Byte.to_N b) in
      out ++ run st' rest
  end.

Definition items (bs : pybytes) : list item := run Start bs.

(** [bytes.decode('utf-8', errors='strict')]: [None] stands for
    [UnicodeDecodeError]. *)
Definition decode_strict (bs : pybytes) : option pystr :=
  mapM (fun i : item => i) (items bs).

(** [bytes.decode('utf-8', errors='ignore')]: ill-formed runs vanish. *)
Definition decode_ignore (bs : pybytes) : pystr :=
  omap (fun i : item => i) (items bs).

(** [bytes.decode('utf-8', errors='replace')]: each ill-formed run
    becomes U+FFFD. *)
Definition replacement_character : char := 0xFFFD%N.

Definition decode_replace (bs : pybytes) : pystr :=
  map (fun i : item => default replacement_character i) (items bs).

End Utf8.

(** String literals of the source are written as Rocq strings (their UTF-8
    bytes) and read back as code points. *)
Definition py (s : string) : pystr :=
  Utf8.decode_ignore (list_byte_of_string s).

Definition startswith (s prefix : pystr) : bool :=
  bool_decide (take (length prefix) s = prefix).

(** [str(n)] for a non-negative integer. *)
Definition digit_char (d : N) : char := (48 + d)%N.

Fixpoint decimal_digits (fuel : nat) (n : N) (acc : pystr) : pystr :=
  match fuel with
  | O => acc
  | S fuel' =>
      let acc' := digit_char (n mod 10) :: acc in
      if (n <? 10)%N then acc' else decimal_digits fuel' (n / 10) acc'
  end.

Definition str_of_N (n : N) : pystr :=
  decimal_digits (S (N.to_nat (N.log2 n))) n [].

Definition str_of_Z (z : Z) : pystr :=
  if z <? 0 then py "-" ++ str_of_N (Z.to_N (- z)) else str_of_N (Z.to_N z).

(** [s[:n]] and [s[i:j]] for [0 <= i <= j], on any Python sequence. *)
Definition slice_to {A} (n : nat) (s : list A) : list A := take n s.
Definition slice {A} (i j : nat) (s : list A) : list A := take (j - i) (drop i s).

(** [x or y] and truthiness of optional strings and byte strings:
    [None] and the empty sequence are falsy. *)
Definition truthy {A} (x : option (list A)) : bool :=
  match x with
  | Some (_ :: _) => true
  | _ => false
  end.

(** A decoded JSON document, as [response.json()] builds it: [dict] with
    string keys (in insertion order), [list], [str], [int], [float] (kept
    as its literal), [bool] and [None]. *)
Inductive json :=
| JNull
| JBool (b : bool)
| JInt (z : Z)
| JFloat (literal : pystr)
| JStr (s : pystr)
| JArr (l : list json)
| JObj (fields : list (pystr * json)).

(** Exceptions.  The handlers of [call_gemini_api] distinguish
    [requests.exceptions.Timeout], [requests.exceptions.ConnectionError]
    and everything else; [exn_str] is [str(e)]. *)
Inductive exn_class := Timeout | ConnectionError | OtherException.

Record exn := Raise { exn_kind : exn_class; exn_str : pystr }.

Definition result (A : Type) : Type := exn + A.

Definition type_name (v : json) : pystr :=
  match v with
  | JNull => py "NoneType"
  | JBool _ => py "bool"
  | JInt _ => py "int"
  | JFloat _ => py "float"
  | JStr _ => py "str"
  | JArr _ => py "list"
  | JObj _ => py "dict"
  end.

Definition not_subscriptable (v : json) : exn :=
  Raise OtherException (py "'" ++ type_name v ++ py "' object is not subscriptable").

Fixpoint assoc (k : pystr) (fields : list (pystr * json)) : option json :=
  match fields with
  | [] => None
  | (k', v) :: rest => if decide (k' = k) then Some v else assoc k rest
  end.

(** [v[key]] for a string key. *)
Definition getitem_str (v : json) (key : pystr) : result json :=
  match v with
  | JObj fields =>
      match assoc key fields with
      | Some x => inr x
      | None => inl (Raise OtherException (py "'" ++ key ++ py "'"))   (* KeyError *)
      end
  | JArr _ => inl (Raise OtherException (py "list indices must be integers or slices, not str"))
  | JStr _ => inl (Raise OtherException (py "string indices must be integers, not 'str'"))
  | _ => inl (not_subscriptable v)
  end.

(** [v[0]]. *)
Definition getitem_0 (v : json) : result json :=
  match v with
  | JArr (x :: _) => inr x
  | JArr [] => inl (Raise OtherException (py "list index out of range"))
  | JStr (c :: _) => inr (JStr [c])
  | JStr [] => inl (Raise OtherException (py "string index out of range"))
  | JObj _ => inl (Raise OtherException (py "0"))                     (* KeyError *)
  | _ => inl (not_subscriptable v)
  end.

(** ** Data model *)

(** One element of a message's [content] list:
    [{"type": "text", "text": t}] or
    [{"type": "image_url", "image_url": {"url": u}}]. *)
Inductive part :=
| TextPart (text : pystr)
| ImageUrlPart (url : pystr).

(** The [content] of a stored message: the part list built by
    [prepare_message_content] for a user turn, or whatever the API
    returned as [choices[0].message.content] for an assistant turn. *)
Inductive content :=
| Parts (parts : list part)
| Reply (value : json).

(** [{"role": role, "content": content}]. *)
Record turn := Turn { role : pystr; turn_content : content }.

Abbreviation user_id := Z (only parsing).

(** The attributes of a [GeminiBot] instance. *)
Record GeminiBot := Bot {
  user_contexts : gmap Z (list turn);
  max_context_length : Z
}.

(** [GeminiBot.__init__] *)
Definition init : GeminiBot :=
  {| user_contexts := ∅; max_context_length := 10 |}.

Definition set_context (self : GeminiBot) (u : user_id) (ctx : list turn) : GeminiBot :=
  {| user_contexts := <[u := ctx]> (user_contexts self);
     max_context_length := max_context_length self |}.

(** [GeminiBot.get_user_context]: returns the user's list, creating an
    empty one when the user is unknown. *)
Definition get_user_context (self : GeminiBot) (u : user_id) : list turn * GeminiBot :=
  match user_contexts self !! u with
  | Some ctx => (ctx, self)
  | None => ([], set_context self u [])
  end.

(** [GeminiBot.add_to_context]: the list returned by [get_user_context] is
    the stored object itself, so [append] and [pop(0)] change the store. *)
Definition add_to_context (self : GeminiBot) (u : user_id) (r : pystr) (c : content)
  : GeminiBot :=
  let '(context, self) := get_user_context self u in
  let context := context ++ [Turn r c] in
  let context :=
    if Z.of_nat (length context) >? max_context_length self * 2
    then drop 1 context                                   (* context.pop(0) *)
    else context in
  set_context self u context.

(** [GeminiBot.clear_context] *)
Definition clear_context (self : GeminiBot) (u : user_id) : GeminiBot :=
  match user_contexts self !! u with
  | Some _ => set_context self u []
  | None => self
  end.

(** [History(U)] of the specification: what the store holds for [u]. *)
Definition history (self : GeminiBot) (u : user_id) : list turn :=
  default [] (user_contexts self !! u).

(** ** Content encoder *)

Module Base64.

Definition alphabet : pystr :=
  py "ABCDEFGHIJKLMNOPQRSTUVWXYZabcdefghijklmnopqrstuvwxyz0123456789+/".

Definition pad : char := 61%N.                                   (* '=' *)

Definition sextet (n : N) : char := nth (N.to_nat (n mod 64)) alphabet pad.

(** [base64.b64encode]: three bytes give four characters; a final group
    of one or two bytes is padded with ['=']. *)
Fixpoint b64encode (bs : pybytes) : pystr :=
  match bs with
  | [] => []
  | [a] =>
      let n := (Byte.to_N a * 65536)%N in
      [sextet (n / 262144); sextet (n / 4096); pad; pad]
  | [a; b] =>
      let n := (Byte.to_N a * 65536 + Byte.to_N b * 256)%N in
      [sextet (n / 262144); sextet (n / 4096); sextet (n / 64); pad]
  | a :: b :: c :: rest =>
      let n := (Byte.to_N a * 65536 + Byte.to_N b * 256 + Byte.to_N c)%N in
      [sextet (n / 262144); sextet (n / 4096); sextet (n / 64); sextet n]
        ++ b64encode rest
  end.

End Base64.

Definition newline : pystr := [10%N].

(** [GeminiBot.encode_file_to_base64]: [None] is the value of the [except]
    branch; [b64encode] of a [bytes] object and the decoding of its ASCII
    output raise nothing, so the branch is never taken. *)
Definition encode_file_to_base64 (file_content : pybytes) (mime_type : pystr)
  : option pystr :=
  let encoded_content := Base64.b64encode file_content in
  Some (py "data:" ++ mime_type ++ py ";base64," ++ encoded_content).

Definition GREETING : pystr := py "Привет!".

Definition pdf_notice (file_data : pybytes) : pystr :=
  py "[PDF файл получен, но текст не может быть извлечен автоматически. Размер: "
    ++ str_of_N (N.of_nat (length file_data)) ++ py " байт]".

(** The text shown for a file that is not an image: the body of the inner
    [try].  Neither [len] nor [decode(..., errors='ignore')] raises. *)
Definition text_content (file_data : pybytes) (mime_type : pystr) : result pystr :=
  if decide (mime_type = py "application/pdf")
  then inr (pdf_notice file_data)
  else inr (Utf8.decode_ignore file_data).

Definition file_label (mime_type : pystr) : pystr :=
  py "Содержимое файла (" ++ mime_type ++ py "):" ++ newline ++ newline.

Definition ELLIPSIS : pystr := py "...".

(** [GeminiBot.prepare_message_content] *)
Definition prepare_message_content
    (text : option pystr) (file_data : option pybytes) (mime_type : option pystr)
  : list part :=
  let content := [] in
  let content :=
    if truthy text then content ++ [TextPart (default [] text)] else content in
  let content :=
    if truthy file_data && truthy mime_type then
      let file_data := default [] file_data in
      let mime_type := default [] mime_type in
      if startswith mime_type (py "image/") then
        let encoded_file := encode_file_to_base64 file_data mime_type in
        if truthy encoded_file
        then content ++ [ImageUrlPart (default [] encoded_file)]
        else content
      else
        match text_content file_data mime_type with
        | inr text_content =>
            content ++ [TextPart (file_label mime_type ++ slice_to 4000 text_content ++ ELLIPSIS)]
        | inl e =>
            content ++ [TextPart (py "[Не удалось прочитать файл: " ++ exn_str e ++ py "]")]
        end
    else content in
  match content with
  | _ :: _ => content
  | [] => [TextPart (if truthy text then default [] text else GREETING)]
  end.

(** ** The outside world *)

(** What [requests.post] hands back. [response_json] is the outcome of
    [response.json()], which raises when the body is not JSON. *)
Record Response := {
  status_code : Z;
  response_text : pystr;
  response_json : result json
}.

(** The [telebot] objects the handlers read. *)
Record File := { file_size : option Z; file_path : option pystr }.

Record Document := {
  file_id : pystr;
  mime_type : option pystr;
  file_name : option pystr
}.

Record Message := {
  from_user_id : Z;
  chat_id : Z;
  message_text : option pystr;
  caption : option pystr;
  document : option Document
}.

(** Calls that leave the process, in the order they are made. *)
Inductive event :=
| SendChatAction (chat : Z) (action : pystr)
| GetFile (id : pystr)
| DownloadFile (path : option pystr)
| SendMessage (chat : Z) (text : json) (parse_mode : option pystr)
| Post (messages : list turn).

(** The answers of the world to those calls.  [send_chat_action] and
    [send_message] are taken to succeed. *)
Record World := {
  requests_post : list turn → result Response;
  bot_get_file : pystr → result File;
  bot_download_file : option pystr → result pybytes;
  mimetypes_guess_type : option pystr → result (option pystr)
}.

(** The module-level state: the global [gemini_bot] and the calls made. *)
Record process := Process { gemini_bot : GeminiBot; log : list event }.

(** Computations that read and change the process and may raise. *)
Definition M (A : Type) : Type := process → result A * process.

#[global] Instance M_ret : MRet M := λ A x p, (inr x, p).

#[global] Instance M_bind : MBind M := λ A B f m p,
  match m p with
  | (inr x, p') => f x p'
  | (inl e, p') => (inl e, p')
  end.

Definition raise {A} (e : exn) : M A := λ p, (inl e, p).

Definition lift {A} (r : result A) : M A := λ p, (r, p).

(** [try: body except Exception as e: handler(e)]; what [body] did to the
    process before it raised stays done. *)
Definition try_except {A} (body : M A) (handler : exn → M A) : M A := λ p,
  match body p with
  | (inr x, p') => (inr x, p')
  | (inl e, p') => handler e p'
  end.

Definition emit (e : event) : M unit := λ p,
  (inr tt, {| gemini_bot := gemini_bot p; log := log p ++ [e] |}).

(** A method of [gemini_bot] that returns a value. *)
Definition with_bot {A} (f : GeminiBot → A * GeminiBot) : M A := λ p,
  let '(x, b) := f (gemini_bot p) in
  (inr x, {| gemini_bot := b; log := log p |}).

(** A method of [gemini_bot] that returns nothing. *)
Definition update_bot (f : GeminiBot → GeminiBot) : M unit :=
  with_bot (λ b, (tt, f b)).

Fixpoint for_each {A} (l : list A) (body : A → M unit) : M unit :=
  match l with
  | [] => mret tt
  | x :: rest => body x;; for_each rest body
  end.

(** [range(start, stop, step)] for [step > 0]. *)
Definition range (start stop step : nat) : list nat :=
  (λ k, start + k * step)%nat <$> seq 0 ((stop - start + step - 1) / step).

(** [len(v)] *)
Definition py_len (v : json) : result nat :=
  match v with
  | JStr s => inr (length s)
  | JArr l => inr (length l)
  | JObj fields => inr (length fields)
  | _ => inl (Raise OtherException
                (py "object of type '" ++ type_name v ++ py "' has no len()"))
  end.

(** [v[i:j]] *)
Definition py_slice (v : json) (i j : nat) : result json :=
  match v with
  | JStr s => inr (JStr (slice i j s))
  | JArr l => inr (JArr (slice i j l))
  | JObj _ => inl (Raise OtherException (py "unhashable type: 'slice'"))
  | _ => inl (not_subscriptable v)
  end.

(** ** Completion client and handlers *)

Definition SUPPORTED_DOCUMENT_TYPES : list pystr :=
  [py "text/plain"; py "application/pdf"; py "application/json";
   py "text/csv"; py "application/msword"; py "text/html"].

(** [sep.join(l)] *)
Fixpoint join (sep : pystr) (l : list pystr) : pystr :=
  match l with
  | [] => []
  | [x] => x
  | x :: rest => x ++ sep ++ join sep rest
  end.

(** The largest document the handler accepts, in bytes. *)
Definition MAX_DOCUMENT_SIZE : Z := 20 * 1024 * 1024.

(** The longest text sent as one message. *)
Definition MESSAGE_LIMIT : nat := 4096.

Definition TIMEOUT_MESSAGE : pystr :=
  py "⏰ Превышено время ожидания. Попробуйте еще раз.".
Definition CONNECTION_MESSAGE : pystr :=
  py "🌐 Ошибка подключения к API. Проверьте интернет.".
Definition TOO_LARGE_MESSAGE : pystr :=
  py "❌ Файл слишком большой. Максимум 20MB.".
Definition UNKNOWN_TYPE_MESSAGE : pystr :=
  py "❌ Не удалось определить тип файла.".
Definition UNSUPPORTED_TYPE_MESSAGE : pystr :=
  py "❌ Тип файла не поддерживается." ++ newline ++ newline
    ++ py "**Поддерживаемые форматы:**" ++ newline
    ++ join (py ", ") SUPPORTED_DOCUMENT_TYPES.

Definition api_error_message (response : Response) : pystr :=
  py "❌ Ошибка API: " ++ str_of_Z (status_code response) ++ newline
    ++ response_text response.

Definition generic_error_message (e : exn) : pystr :=
  py "❌ Произошла ошибка: " ++ exn_str e.

(** [result['choices'][0]['message']['content']] *)
Definition first_choice_content (body : json) : result json :=
  match getitem_str body (py "choices") with
  | inl e => inl e
  | inr choices =>
      match getitem_0 choices with
      | inl e => inl e
      | inr choice =>
          match getitem_str choice (py "message") with
          | inl e => inl e
          | inr message => getitem_str message (py "content")
          end
      end
  end.

Section Handlers.

Variable world : World.

Definition post (messages : list turn) : M Response :=
  emit (Post messages);; lift (requests_post world messages).

Definition send_chat_action (chat : Z) (action : pystr) : M unit :=
  emit (SendChatAction chat action).

Definition send_message (chat : Z) (text : json) (parse_mode : option pystr) : M unit :=
  emit (SendMessage chat text parse_mode).

Definition get_file (id : pystr) : M File :=
  emit (GetFile id);; lift (bot_get_file world id).

Definition download_file (path : option pystr) : M pybytes :=
  emit (DownloadFile path);; lift (bot_download_file world path).

(** The body of the [try] in [GeminiBot.call_gemini_api]. *)
Definition call_gemini_api_body
    (u : user_id) (text : option pystr) (file_data : option pybytes)
    (mime : option pystr) : M json :=
  context ← with_bot (λ b, get_user_context b u);
  let message_content := prepare_message_content text file_data mime in
  let messages := context ++ [Turn (py "user") (Parts message_content)] in
  response ← post messages;
  if status_code response =? 200 then
    result ← lift (response_json response);
    ai_response ← lift (first_choice_content result);
    update_bot (λ b, add_to_context b u (py "user") (Parts message_content));;
    update_bot (λ b, add_to_context b u (py "assistant") (Reply ai_response));;
    mret ai_response
  else
    mret (JStr (api_error_message response)).

(** [GeminiBot.call_gemini_api] *)
Definition call_gemini_api
    (u : user_id) (text : option pystr) (file_data : option pybytes)
    (mime : option pystr) : M json :=
  try_except (call_gemini_api_body u text file_data mime)
    (λ e, match exn_kind e with
          | Timeout => mret (JStr TIMEOUT_MESSAGE)
          | ConnectionError => mret (JStr CONNECTION_MESSAGE)
          | OtherException => mret (JStr (generic_error_message e))
          end).

(** The block that ends [text_handler], [photo_handler] and
    [document_handler]: send the response, in pieces when it is long. *)
Definition relay (chat : Z) (response : json) : M unit :=
  n ← lift (py_len response);
  if (MESSAGE_LIMIT <? n)%nat then
    for_each (range 0 n MESSAGE_LIMIT) (λ i,
      piece ← lift (py_slice response i (i + MESSAGE_LIMIT));
      send_message chat piece None)
  else
    send_message chat response None.

(** [text_handler] *)
Definition text_handler (message : Message) : M unit :=
  try_except
    (send_chat_action (chat_id message) (py "typing");;
     response ← call_gemini_api (from_user_id message) (message_text message) None None;
     relay (chat_id message) response)
    (λ e, send_message (chat_id message) (JStr (generic_error_message e)) None).

Definition str_of_option (x : option pystr) : pystr := default (py "None") x.

(** [document_handler] *)
Definition document_handler (message : Message) : M unit :=
  let chat := chat_id message in
  try_except
    (send_chat_action chat (py "typing");;
     doc ← lift (match document message with
                 | Some d => inr d
                 | None => inl (Raise OtherException
                       (py "'NoneType' object has no attribute 'file_id'"))
                 end);
     file_info ← get_file (file_id doc);
     size ← lift (match file_size file_info with
                  | Some n => inr n
                  | None => inl (Raise OtherException
                        (py "'>' not supported between instances of 'NoneType' and 'int'"))
                  end);
     if size >? MAX_DOCUMENT_SIZE then
       send_message chat (JStr TOO_LARGE_MESSAGE) None
     else
       mime ← (if truthy (mime_type doc) then mret (mime_type doc)
               else lift (mimetypes_guess_type world (file_name doc)));
       if negb (truthy mime) then
         send_message chat (JStr UNKNOWN_TYPE_MESSAGE) None
       else
         let mime_type := default [] mime in
         if negb (bool_decide (mime_type ∈ SUPPORTED_DOCUMENT_TYPES))
            && negb (startswith mime_type (py "text/")) then
           send_message chat (JStr UNSUPPORTED_TYPE_MESSAGE) (Some (py "Markdown"))
         else
           file_data ← download_file (file_path file_info);
           let caption :=
             if truthy (caption message) then default [] (caption message)
             else py "Проанализируй содержимое файла " ++ str_of_option (file_name doc) in
           response ← call_gemini_api (from_user_id message)
                        (Some caption) (Some file_data) (Some mime_type);
           relay chat response)
    (λ e, send_message chat
            (JStr (py "❌ Ошибка при обработке файла: " ++ exn_str e)) None).

End Handlers.

(** ** Context store: specification-level definitions *)

(** The three operations of the store. *)
Inductive store_op :=
| Get (u : user_id)
| Append (u : user_id) (r : pystr) (c : content)
| Clear (u : user_id).

Definition apply_op (b : GeminiBot) (o : store_op) : GeminiBot :=
  match o with
  | Get u => (get_user_context b u).2
  | Append u r c => add_to_context b u r c
  | Clear u => clear_context b u
  end.

Definition run_ops (ops : list store_op) (b : GeminiBot) : GeminiBot :=
  foldl apply_op b ops.

(** Eviction as the specification words it: drop the oldest turn as long
    as the list is longer than the bound. *)
Fixpoint evict_until (bound : Z) (l : list turn) : list turn :=
  match l with
  | [] => []
  | _ :: rest => if Z.of_nat (length l) >? bound then evict_until bound rest else l
  end.

(** [append] as the specification words it. *)
Definition append_as_specified (b : GeminiBot) (u : user_id) (r : pystr) (c : content)
  : GeminiBot :=
  let '(ctx, b) := get_user_context b u in
  set_context b u (evict_until (max_context_length b * 2) (ctx ++ [Turn r c])).

(** Every stored list respects the bound. *)
Definition bounded (b : GeminiBot) : Prop :=
  0 ≤ max_context_length b ∧
  ∀ u ctx, user_contexts b !! u = Some ctx →
           Z.of_nat (length ctx) ≤ max_context_length b * 2.

(** ** Content encoder: specification-level definitions *)

(** The text part for a file that is neither an image nor a PDF, as the
    specification words it: the label with the MIME type, then the first
    4000 characters of the bytes decoded as UTF-8 with undecodable bytes
    replaced. *)
Definition text_file_part_as_specified (file_data : pybytes) (mime : pystr) : part :=
  TextPart (file_label mime ++ slice_to 4000 (Utf8.decode_replace file_data)).

(** The text part [prepare_message_content] builds for such a file. *)
Definition text_file_part (file_data : pybytes) (mime : pystr) : part :=
  TextPart (file_label mime ++ slice_to 4000 (Utf8.decode_ignore file_data) ++ ELLIPSIS).

(** The part for the caller's text, when there is one. *)
Definition text_parts (text : option pystr) : list part :=
  if truthy text then [TextPart (default [] text)] else [].

(** ** Completion client: specification-level definitions *)

(** The message list sent to the API: the stored history and the new user
    turn. *)
Definition request_messages (b : GeminiBot) (u : user_id)
    (text : option pystr) (file_data : option pybytes) (mime : option pystr)
  : list turn :=
  history b u ++ [Turn (py "user") (Parts (prepare_message_content text file_data mime))].

(** The outcomes of the HTTP exchange in which the call fails:
    [requests.post] raises (timeout, connection error or anything else),
    the status is not 200, the body is not JSON, or the JSON has no
    [choices[0].message.content]. *)
Inductive failure : result Response → Prop :=
| post_raises e :
    failure (inl e)
| status_not_200 resp :
    status_code resp ≠ 200 → failure (inr resp)
| body_not_json resp e :
    status_code resp = 200 → response_json resp = inl e → failure (inr resp)
| content_missing resp body e :
    status_code resp = 200 → response_json resp = inr body →
    first_choice_content body = inl e → failure (inr resp).

(** The outcome in which the call succeeds, with the content extracted. *)
Inductive success : result Response → json → Prop :=
| status_200 resp body v :
    status_code resp = 200 → response_json resp = inr body →
    first_choice_content body = inr v → success (inr resp) v.

(** What the [except] clauses of [call_gemini_api] return for [e]. *)
Definition exception_message (e : exn) : pystr :=
  match exn_kind e with
  | Timeout => TIMEOUT_MESSAGE
  | ConnectionError => CONNECTION_MESSAGE
  | OtherException => generic_error_message e
  end.

(** A reply whose [content] is JSON [null]:
    [{"choices": [{"message": {"role": "assistant", "content": null}}]}]. *)
Definition null_content_body : json :=
  JObj [(py "choices",
         JArr [JObj [(py "message",
                      JObj [(py "role", JStr (py "assistant"));
                            (py "content", JNull)])]])].

(** The API answers 200 with that body. *)
Definition null_content_world : World := {|
  requests_post := λ _, inr {| status_code := 200;
                               response_text := py "";
                               response_json := inr null_content_body |};
  bot_get_file := λ _, inl (Raise OtherException []);
  bot_download_file := λ _, inl (Raise OtherException []);
  mimetypes_guess_type := λ _, inr None
|}.

(** The request times out. *)
Definition timeout_world : World := {|
  requests_post := λ _, inl (Raise Timeout (py "Read timed out."));
  bot_get_file := λ _, inl (Raise OtherException []);
  bot_download_file := λ _, inl (Raise OtherException []);
  mimetypes_guess_type := λ _, inr None
|}.

(** The API answers 200 with the text [reply]. *)
Definition replying_world (reply : pystr) : World := {|
  requests_post := λ _,
    inr {| status_code := 200;
           response_text := [];
           response_json :=
             inr (JObj [(py "choices",
                         JArr [JObj [(py "message",
                                      JObj [(py "content", JStr reply)])]])]) |};
  bot_get_file := λ _, inl (Raise OtherException []);
  bot_download_file := λ _, inl (Raise OtherException []);
  mimetypes_guess_type := λ _, inr None
|}.

(** A store in which user 7 has said one thing. *)
Definition one_turn_bot : GeminiBot :=
  set_context init 7 [Turn (py "user") (Parts [TextPart (py "hi")])].

(** ** Relay: specification-level definitions *)

(** [ceil(n / c)] *)
Definition ceil_div (n c : nat) : nat := (n + c - 1) / c.

(** The texts [relay] sends for a string response, in order. *)
Definition relayed (s : pystr) : list pystr :=
  if (MESSAGE_LIMIT <? length s)%nat
  then (λ i, slice i (i + MESSAGE_LIMIT) s) <$> range 0 (length s) MESSAGE_LIMIT
  else [s].

(** The [k]-th piece of [s] cut every [c] elements. *)
Definition chunk {A : Type} (c : nat) (s : list A) (k : nat) : list A :=
  take c (drop (k * c) s).

(** ** Document handler: specification-level definitions *)

(** [message.document.mime_type or mimetypes.guess_type(file_name)[0]] *)
Definition resolve_mime_type (w : World) (doc : Document) : result (option pystr) :=
  if truthy (mime_type doc) then inr (mime_type doc)
  else mimetypes_guess_type w (file_name doc).

(** The three reasons for which a document is turned away. *)
Inductive rejected (w : World) (doc : Document) (size : Z) : Prop :=
| too_large :
    size > MAX_DOCUMENT_SIZE → rejected w doc size
| type_unknown mime :
    resolve_mime_type w doc = inr mime → truthy mime = false →
    rejected w doc size
| type_unsupported mime :
    resolve_mime_type w doc = inr (Some mime) → mime ≠ [] →
    mime ∉ SUPPORTED_DOCUMENT_TYPES → startswith mime (py "text/") = false →
    rejected w doc size.

(** A world that reports a 1 KiB file and cannot guess a type. *)
Definition small_file_world : World := {|
  requests_post := λ _, inl (Raise ConnectionError []);
  bot_get_file := λ _, inr {| file_size := Some 1024; file_path := Some (py "documents/file_1") |};
  bot_download_file := λ _, inr [x50; x4b];
  mimetypes_guess_type := λ _, inr None
|}.

(** A zip archive sent by user 7. *)
Definition zip_document : Document := {|
  file_id := py "BQACAgIAAxkBAAIB";
  mime_type := Some (py "application/zip");
  file_name := Some (py "archive.zip")
|}.

Definition zip_message : Message := {|
  from_user_id := 7;
  chat_id := 7;
  message_text := None;
  caption := None;
  document := Some zip_document
|}.

(** ** Further specification-level definitions *)

(** The user an operation of the store is about. *)
Definition op_user (o : store_op) : user_id :=
  match o with
  | Get u => u
  | Append u _ _ => u
  | Clear u => u
  end.

(** A history made of exchanges: a user turn, then the assistant's. *)
Fixpoint paired (l : list turn) : Prop :=
  match l with
  | [] => True
  | t1 :: t2 :: rest =>
      role t1 = py "user" ∧ role t2 = py "assistant" ∧ paired rest
  | [_] => False
  end.

(** What a chat does to the store: a message answered through
    [call_gemini_api], each against its own world, or the call of
    [clear_context] that [/clear] and the clear button make. *)
Inductive action :=
| Ask (w : World) (u : user_id) (text : option pystr)
      (file_data : option pybytes) (mime : option pystr)
| Forget (u : user_id).

Definition perform (p : process) (a : action) : process :=
  match a with
  | Ask w u text file_data mime => (call_gemini_api w u text file_data mime p).2
  | Forget u => {| gemini_bot := clear_context (gemini_bot p) u; log := log p |}
  end.

Definition perform_all (actions : list action) (p : process) : process :=
  foldl perform p actions.

(** The state every chat leaves behind: histories within the bound and
    made of exchanges. *)
Definition well_formed (b : GeminiBot) : Prop :=
  bounded b ∧ 1 ≤ max_context_length b ∧ ∀ u, paired (history b u).


(** One entry of [message.photo]. *)
Record PhotoSize := { photo_file_id : pystr; width : Z; height : Z }.

Definition DEFAULT_PHOTO_PROMPT : pystr :=
  py "Что изображено на этой картинке? Опиши подробно.".

(** [photo_handler].  [photo] stands for [message.photo], a list the
    record [Message] does not carry; [photo[-1]] is its last entry. *)
Definition photo_handler (w : World) (message : Message) (photo : list PhotoSize)
  : M unit :=
  let chat := chat_id message in
  try_except
    (send_chat_action chat (py "typing");;
     largest ← lift (match last photo with
                     | Some size => inr size
                     | None => inl (Raise OtherException (py "list index out of range"))
                     end);
     file_info ← get_file w (photo_file_id largest);
     file_data ← download_file w (file_path file_info);
     let caption :=
       if truthy (caption message) then default [] (caption message)
       else DEFAULT_PHOTO_PROMPT in
     let mime_type := py "image/jpeg" in
     response ← call_gemini_api w (from_user_id message)
                  (Some caption) (Some file_data) (Some mime_type);
     relay chat response)
    (λ e, send_message chat
            (JStr (py "❌ Ошибка при обработке изображения: " ++ exn_str e)) None).

(** The process after the events [es] have been logged. *)
Definition logged (p : process) (es : list event) : process :=
  {| gemini_bot := gemini_bot p; log := log p ++ es |}.

(** The prompt [document_handler] sends with a file. *)
Definition document_prompt (message : Message) (doc : Document) : pystr :=
  if truthy (caption message) then default [] (caption message)
  else py "Проанализируй содержимое файла " ++ str_of_option (file_name doc).

(** The prompt [photo_handler] sends with an image. *)
Definition photo_prompt (message : Message) : pystr :=
  if truthy (caption message) then default [] (caption message)
  else DEFAULT_PHOTO_PROMPT.

(** The values [relay] sends for a response, when it raises nothing. *)
Definition sends (chat : Z) (values : list json) : list event :=
  (λ v, SendMessage chat v None) <$> values.

(** The text [call_gemini_api] returns for a failed exchange. *)
Definition failure_text (r : result Response) : pystr :=
  match r with
  | inl e => exception_message e
  | inr resp =>
      if status_code resp =? 200 then
        match response_json resp with
        | inl e => exception_message e
        | inr body =>
            match first_choice_content body with
            | inl e => exception_message e
            | inr _ => []
            end
        end
      else api_error_message resp
  end.

(** The exception [document_handler] meets before it can judge the file:
    [bot.get_file] raises, or the metadata carries no size and the
    comparison with the limit raises [TypeError]. *)
Definition metadata_error (w : World) (doc : Document) : option exn :=
  match bot_get_file w (file_id doc) with
  | inl e => Some e
  | inr info =>
      match file_size info with
      | Some _ => None
      | None => Some (Raise OtherException
                  (py "'>' not supported between instances of 'NoneType' and 'int'"))
      end
  end.

(** The conditions under which [document_handler] goes on to download. *)
Definition accepted (w : World) (doc : Document) (info : File) (mime : pystr) : Prop :=
  (∃ size, file_size info = Some size ∧ size ≤ MAX_DOCUMENT_SIZE) ∧
  resolve_mime_type w doc = inr (Some mime) ∧
  mime ≠ [] ∧
  (mime ∈ SUPPORTED_DOCUMENT_TYPES ∨ startswith mime (py "text/") = true).

Definition DOCUMENT_ERROR_PREFIX : pystr := py "❌ Ошибка при обработке файла: ".
Definition PHOTO_ERROR_PREFIX : pystr := py "❌ Ошибка при обработке изображения: ".
Definition TEXT_ERROR_PREFIX : pystr := py "❌ Произошла ошибка: ".

(** A text document the handler accepts, and a world that serves it. *)
Definition csv_document : Document := {|
  file_id := py "BQACAgIAAxkBAAIC";
  mime_type := Some (py "text/csv");
  file_name := Some (py "table.csv")
|}.

Definition csv_message : Message := {|
  from_user_id := 7;
  chat_id := 7;
  message_text := None;
  caption := None;
  document := Some csv_document
|}.

Definition csv_info : File :=
  {| file_size := Some 3; file_path := Some (py "documents/file_2") |}.

Definition csv_world : World := {|
  requests_post := λ _,
    inr {| status_code := 200;
           response_text := [];
           response_json :=
             inr (JObj [(py "choices",
                         JArr [JObj [(py "message",
                                      JObj [(py "content", JStr (py "ok"))])]])]) |};
  bot_get_file := λ _, inr csv_info;
  bot_download_file := λ _, inr [x61; x2c; x62];
  mimetypes_guess_type := λ _, inr None
|}.

(** The same platform, but the download fails. *)
Definition broken_download_world : World := {|
  requests_post := requests_post csv_world;
  bot_get_file := λ _, inr csv_info;
  bot_download_file := λ _, inl (Raise OtherException (py "Bad Request: file is too big"));
  mimetypes_guess_type := λ _, inr None
|}.

(** A platform whose metadata carry no size. *)
Definition sizeless_world : World := {|
  requests_post := requests_post csv_world;
  bot_get_file := λ _, inr {| file_size := None; file_path := Some (py "documents/file_3") |};
  bot_download_file := λ _, inr [];
  mimetypes_guess_type := λ _, inr None
|}.

Definition photo_message : Message := {|
  from_user_id := 7;
  chat_id := 7;
  message_text := None;
  caption := None;
  document := None
|}.

Definition two_sizes : list PhotoSize :=
  [{| photo_file_id := py "small"; width := 90; height := 60 |};
   {| photo_file_id := py "large"; width := 1280; height := 853 |}].

(** Reading Base64 back, to state that the encoding loses nothing: the
    place of a character in the alphabet, and the bytes of a padded
    string ([None] when it is not one). *)
Fixpoint b64_index (c : char) (l : pystr) : N :=
  match l with
  | [] => 0%N
  | x :: rest => if (x =? c)%N then 0%N else (1 + b64_index c rest)%N
  end.

Definition b64_value (c : char) : N := b64_index c Base64.alphabet.

Fixpoint b64decode (s : pystr) : option pybytes :=
  match s with
  | [] => Some []
  | c1 :: c2 :: c3 :: c4 :: rest =>
      let high := (b64_value c1 * 64 + b64_value c2)%N in
      if (c3 =? Base64.pad)%N then
        match rest with
        | [] => a ← Byte.of_N (high * 4096 / 65536); Some [a]
        | _ :: _ => None
        end
      else if (c4 =? Base64.pad)%N then
        match rest with
        | [] =>
            let n := ((high * 64 + b64_value c3) * 64)%N in
            a ← Byte.of_N (n / 65536);
            b ← Byte.of_N ((n / 256) mod 256);
            Some [a; b]
        | _ :: _ => None
        end
      else
        let n := ((high * 64 + b64_value c3) * 64 + b64_value c4)%N in
        a ← Byte.of_N (n / 65536);
        b ← Byte.of_N ((n / 256) mod 256);
        c ← Byte.of_N (n mod 256);
        tail ← b64decode rest;
        Some (a :: b :: c :: tail)
  | _ => None
  end.



(** * Proofs *)

(** ** Sample evaluations *)

Example str_of_Z_404 : str_of_Z 404 = py "404".
Proof. reflexivity. Qed.

Example py_greeting_length : length (py "Привет!") = 7%nat.
Proof. reflexivity. Qed.

Example b64_man : Base64.b64encode (list_byte_of_string "Ma") = py "TWE=".
Proof. reflexivity. Qed.

Example b64_padding :
  Base64.b64encode (list_byte_of_string "M") = py "TQ==" ∧
  Base64.b64encode (list_byte_of_string "Man") = py "TWFu" ∧
  Base64.b64encode [xfb; xff; xfe; x00] = py "+//+AA==".
Proof. repeat split; reflexivity. Qed.

Example prepare_image :
  prepare_message_content (Some (py "what?")) (Some [xff; xd8; xff]) (Some (py "image/jpeg"))
  = [TextPart (py "what?"); ImageUrlPart (py "data:image/jpeg;base64,/9j/")].
Proof. reflexivity. Qed.

Example prepare_pdf :
  prepare_message_content None (Some [x25; x50; x44; x46]) (Some (py "application/pdf"))
  = [TextPart (py "Содержимое файла (application/pdf):" ++ newline ++ newline
       ++ py "[PDF файл получен, но текст не может быть извлечен автоматически. Размер: 4 байт]...")].
Proof. reflexivity. Qed.

Example prepare_empty_file :
  prepare_message_content None (Some []) (Some (py "text/plain")) = [TextPart GREETING].
Proof. reflexivity. Qed.

Example decode_policies :
  Utf8.decode_strict [xe2; x82; xac] = Some [8364%N] ∧
  Utf8.decode_strict [xe2; x82] = None ∧
  Utf8.decode_ignore [x61; xe2; x82; x62; xc0; x80] = py "ab" ∧
  Utf8.decode_replace [x61; xe2; x82; x62; xc0; x80]
    = [97; 65533; 98; 65533; 65533]%N.
Proof. repeat split; reflexivity. Qed.

Example prepare_text_and_file :
  prepare_message_content (Some (py "hi")) (Some (list_byte_of_string "a,b"))
                          (Some (py "text/csv"))
  = [TextPart (py "hi");
     TextPart (py "Содержимое файла (text/csv):" ++ newline ++ newline ++ py "a,b...")].
Proof. reflexivity. Qed.

(** ** Context store: proofs *)

Lemma history_get_user_context b u :
  (get_user_context b u).1 = history b u ∧
  history (get_user_context b u).2 u = history b u.
Proof.
  unfold get_user_context, history.
  destruct (user_contexts b !! u) as [ctx|] eqn:E; simpl.
  - by rewrite E.
  - by rewrite lookup_insert_eq.
Qed.

Lemma get_user_context_known b u ctx :
  user_contexts b !! u = Some ctx → get_user_context b u = (ctx, b).
Proof. intros E. unfold get_user_context. by rewrite E. Qed.

Lemma history_set_context b u ctx v :
  history (set_context b u ctx) v = if decide (u = v) then ctx else history b v.
Proof.
  unfold history, set_context; simpl. rewrite lookup_insert.
  by destruct (decide (u = v)).
Qed.

Lemma max_context_length_get b u :
  max_context_length (get_user_context b u).2 = max_context_length b.
Proof. unfold get_user_context. by destruct (user_contexts b !! u). Qed.

Lemma history_add_to_context b u r c :
  history (add_to_context b u r c) u =
    let l := history b u ++ [Turn r c] in
    if Z.of_nat (length l) >? max_context_length b * 2 then drop 1 l else l.
Proof.
  unfold add_to_context.
  pose proof (history_get_user_context b u) as [H1 _].
  pose proof (max_context_length_get b u) as Hm.
  destruct (get_user_context b u) as [ctx b'] eqn:E; simpl in *. subst ctx.
  rewrite history_set_context, decide_True by done. by rewrite Hm.
Qed.

Lemma history_add_to_context_other b u v r c :
  u ≠ v → history (add_to_context b u r c) v = history b v.
Proof.
  intros Hne. unfold add_to_context, get_user_context.
  destruct (user_contexts b !! u) eqn:E; simpl;
    rewrite history_set_context, decide_False by done; [done|].
  by rewrite history_set_context, decide_False.
Qed.

Lemma max_context_length_add b u r c :
  max_context_length (add_to_context b u r c) = max_context_length b.
Proof.
  unfold add_to_context, get_user_context.
  by destruct (user_contexts b !! u).
Qed.

Lemma max_context_length_clear b u :
  max_context_length (clear_context b u) = max_context_length b.
Proof. unfold clear_context. by destruct (user_contexts b !! u). Qed.

Lemma bounded_history b :
  bounded b ↔
  0 ≤ max_context_length b ∧
  ∀ u, Z.of_nat (length (history b u)) ≤ max_context_length b * 2.
Proof.
  unfold bounded, history. split; intros [H0 H]; split; try done.
  - intros u. destruct (user_contexts b !! u) eqn:E; simpl; [eauto | lia].
  - intros u ctx E. specialize (H u). by rewrite E in H.
Qed.

Lemma bounded_init : bounded init.
Proof. split; [done|]. intros u ctx. simpl. by rewrite lookup_empty. Qed.

Lemma bounded_apply_op b o : bounded b → bounded (apply_op b o).
Proof.
  rewrite !bounded_history. intros [H0 H]. destruct o as [u|u r c|u]; simpl.
  - rewrite max_context_length_get. split; [done|]. intros v.
    unfold get_user_context. destruct (user_contexts b !! u) eqn:E; simpl; [done|].
    rewrite history_set_context. destruct (decide (u = v)); simpl; [lia | done].
  - rewrite max_context_length_add. split; [done|]. intros v.
    destruct (decide (u = v)) as [<-|Hne].
    + rewrite history_add_to_context. simpl. specialize (H u).
      destruct (Z.gtb_spec (Z.of_nat (length (history b u ++ [Turn r c])))
                  (max_context_length b * 2)) as [Hgt|Hle]; [|done].
      rewrite length_drop, length_app in *. simpl in *. lia.
    + by rewrite history_add_to_context_other.
  - rewrite max_context_length_clear. split; [done|]. intros v.
    unfold clear_context. destruct (user_contexts b !! u) eqn:E; simpl; [|done].
    rewrite history_set_context. destruct (decide (u = v)); simpl; [lia | done].
Qed.

Lemma max_context_length_apply_op b o :
  max_context_length (apply_op b o) = max_context_length b.
Proof.
  destruct o; simpl;
    auto using max_context_length_get, max_context_length_add, max_context_length_clear.
Qed.

Lemma run_ops_invariant ops b :
  bounded b →
  bounded (run_ops ops b) ∧
  max_context_length (run_ops ops b) = max_context_length b.
Proof.
  revert b. induction ops as [|o ops IH]; intros b Hb; simpl; [done|].
  destruct (IH (apply_op b o)) as [H1 H2]; [by apply bounded_apply_op|].
  split; [done|]. by rewrite H2, max_context_length_apply_op.
Qed.

Lemma evict_until_within bound l :
  Z.of_nat (length l) ≤ bound → evict_until bound l = l.
Proof.
  destruct l as [|x l]; [done|]. intros H. cbn [evict_until].
  destruct (Z.gtb_spec (Z.of_nat (length (x :: l))) bound); [lia | done].
Qed.

Lemma evict_until_one_over bound l t :
  Z.of_nat (length l) ≤ bound →
  evict_until bound (l ++ [t]) =
    if Z.of_nat (length (l ++ [t])) >? bound then drop 1 (l ++ [t]) else l ++ [t].
Proof.
  intros H. destruct l as [|x l].
  - cbn [app evict_until]. by destruct (Z.of_nat (length [t]) >? bound).
  - cbn [app evict_until drop].
    destruct (Z.of_nat (length (x :: l ++ [t])) >? bound); [|done].
    rewrite drop_0. apply evict_until_within. rewrite length_app. simpl in *. lia.
Qed.

Lemma add_to_context_as_specified b u r c :
  bounded b → add_to_context b u r c = append_as_specified b u r c.
Proof.
  intros Hb. apply bounded_history in Hb as [_ Hb]. specialize (Hb u).
  unfold add_to_context, append_as_specified.
  pose proof (history_get_user_context b u) as [H1 _].
  pose proof (max_context_length_get b u) as Hm.
  destruct (get_user_context b u) as [ctx b']; simpl in *. subst ctx.
  rewrite Hm. f_equal. symmetry. by apply evict_until_one_over.
Qed.

(** C1. Starting from the empty store, after any sequence of [get],
    [append] and [clear] operations (hence after each operation of the
    sequence) every user's history holds at most [2 * max_context_length]
    = 20 turns; on such a store [add_to_context] pushes the turn and, when
    the list has become too long, leaves exactly what dropping the oldest
    turns until the bound is met leaves. *)
Theorem history_bounded_after_operations (ops : list store_op) (u : user_id) :
  let b := run_ops ops init in
  max_context_length b = 10 ∧
  Z.of_nat (length (history b u)) ≤ 2 * max_context_length b ∧
  ∀ r c,
    add_to_context b u r c = append_as_specified b u r c ∧
    history (add_to_context b u r c) u
      = evict_until (2 * max_context_length b) (history b u ++ [Turn r c]) ∧
    Z.of_nat (length (history (add_to_context b u r c) u)) ≤ 2 * max_context_length b.
Proof.
  intros b. destruct (run_ops_invariant ops init bounded_init) as [Hb Hm].
  fold b in Hb, Hm. split; [done|].
  pose proof Hb as Hb'. apply bounded_history in Hb' as [_ Hlen].
  split; [specialize (Hlen u); lia|]. intros r c.
  split; [by apply add_to_context_as_specified|].
  split.
  - rewrite history_add_to_context. cbv zeta.
    rewrite (Z.mul_comm 2). symmetry. apply evict_until_one_over, Hlen.
  - pose proof (bounded_apply_op b (Append u r c) Hb) as Hb2.
    apply bounded_history in Hb2 as [_ Hb2]. specialize (Hb2 u). simpl in Hb2.
    rewrite max_context_length_add in Hb2. lia.
Qed.

(** C8. Whatever the store holds, reading a user's history right after
    clearing it gives the empty list (and the store then holds the empty
    list for that user). *)
Theorem clear_then_get_is_empty (b : GeminiBot) (u : user_id) :
  (get_user_context (clear_context b u) u).1 = [] ∧
  history (get_user_context (clear_context b u) u).2 u = [].
Proof.
  destruct (history_get_user_context (clear_context b u) u) as [-> ->].
  assert (history (clear_context b u) u = []) as ->; [|done].
  unfold clear_context, history.
  destruct (user_contexts b !! u) eqn:E; simpl.
  - by rewrite lookup_insert_eq.
  - by rewrite E.
Qed.

(** ** Content encoder: proofs *)

Arguments py : simpl never.

Lemma strict_items_some (l : list Utf8.item) (s : pystr) :
  mapM (λ i : Utf8.item, i) l = Some s →
  omap (λ i : Utf8.item, i) l = s ∧
  map (λ i : Utf8.item, default Utf8.replacement_character i) l = s.
Proof.
  revert s. induction l as [|[c|] l IH]; intros s H.
  - by injection H as <-.
  - cbn in H. destruct (mapM _ l) as [s'|] eqn:E; [|done].
    injection H as <-. destruct (IH s' eq_refl) as [H1 H2].
    cbn. by rewrite H1, H2.
  - done.
Qed.

(** On well-formed UTF-8 the three error policies agree. *)
Lemma decode_valid (bs : pybytes) (s : pystr) :
  Utf8.decode_strict bs = Some s →
  Utf8.decode_ignore bs = s ∧ Utf8.decode_replace bs = s.
Proof. apply strict_items_some. Qed.

Lemma prepare_message_content_no_file text file_data mime :
  truthy file_data && truthy mime = false →
  prepare_message_content text file_data mime =
    [TextPart (if truthy text then default [] text else GREETING)].
Proof.
  intros H. unfold prepare_message_content. rewrite H.
  by destruct (truthy text).
Qed.

(** C9. With no text ([None] or the empty string) and no file bytes
    ([None] or empty), whatever the MIME type, the encoder gives exactly
    one part: the text part with the default greeting. *)
Theorem no_text_no_file_gives_greeting
    (text : option pystr) (file_data : option pybytes) (mime : option pystr) :
  truthy text = false →
  truthy file_data = false →
  prepare_message_content text file_data mime = [TextPart GREETING] ∧
  GREETING = py "Привет!".
Proof.
  intros Ht Hf. split; [|done].
  rewrite prepare_message_content_no_file by (by rewrite Hf).
  by rewrite Ht.
Qed.

Lemma no_text_no_file_witness :
  prepare_message_content None None None = [TextPart GREETING] ∧
  GREETING = py "Привет!".
Proof. apply no_text_no_file_gives_greeting; reflexivity. Defined.

(** C10. When file bytes are present but the MIME type is [None] or the
    empty string, no part comes from the file: the result is the text part
    alone when a non-empty text was given, and the default greeting
    otherwise. *)
Theorem file_without_mime_is_ignored
    (text : option pystr) (file_data : pybytes) (mime : option pystr) :
  file_data ≠ [] →
  truthy mime = false →
  prepare_message_content text (Some file_data) mime =
    (if truthy text then [TextPart (default [] text)] else [TextPart GREETING]) ∧
  prepare_message_content text (Some file_data) mime =
    prepare_message_content text None None.
Proof.
  intros _ Hm.
  rewrite !prepare_message_content_no_file
    by (try rewrite Hm; try done; apply andb_false_r).
  by destruct (truthy text).
Qed.

Lemma file_without_mime_witness :
  prepare_message_content (Some (py "hi")) (Some [x25; x50; x44; x46]) None =
    (if truthy (Some (py "hi")) then [TextPart (default [] (Some (py "hi")))]
     else [TextPart GREETING]) ∧
  prepare_message_content (Some (py "hi")) (Some [x25; x50; x44; x46]) None =
    prepare_message_content (Some (py "hi")) None None.
Proof. apply file_without_mime_is_ignored; [discriminate | reflexivity]. Defined.

(** C6, as the code has it. For a non-empty file with a non-empty MIME
    type that neither starts with [image/] nor is [application/pdf], the
    encoder decodes the bytes as UTF-8 and drops (it does not replace)
    what cannot be decoded, keeps the first 4000 characters, and emits,
    after the caller's text part if any, one text part: the label with the
    MIME type, those characters, and three dots.  When the bytes are valid
    UTF-8 the characters kept are the first 4000 of the decoded text. *)
Theorem text_file_is_decoded_and_truncated
    (text : option pystr) (file_data : pybytes) (mime : pystr) :
  file_data ≠ [] →
  mime ≠ [] →
  startswith mime (py "image/") = false →
  mime ≠ py "application/pdf" →
  prepare_message_content text (Some file_data) (Some mime) =
    text_parts text ++ [text_file_part file_data mime] ∧
  text_file_part file_data mime =
    TextPart (py "Содержимое файла (" ++ mime ++ py "):" ++ newline ++ newline
              ++ take 4000 (Utf8.decode_ignore file_data) ++ py "...") ∧
  ∀ s, Utf8.decode_strict file_data = Some s →
       Utf8.decode_ignore file_data = s ∧
       text_file_part file_data mime
         = TextPart (file_label mime ++ take 4000 s ++ ELLIPSIS) ∧
       ((4000 < length s)%nat → length (take 4000 s) = 4000%nat).
Proof.
  intros Hf Hm Hi Hp. split; [|split].
  - unfold prepare_message_content, text_parts, text_file_part, text_content.
    destruct file_data as [|b bs]; [done|]. destruct mime as [|c cs]; [done|].
    cbn [truthy andb from_option id]. rewrite Hi, decide_False by done.
    by destruct (truthy text).
  - unfold text_file_part, file_label, slice_to, ELLIPSIS.
    by rewrite <- !app_assoc.
  - intros s Hs. apply decode_valid in Hs as [Hs _].
    unfold text_file_part, slice_to. rewrite Hs. repeat split.
    intros Hl. rewrite length_take. lia.
Qed.

Lemma text_file_witness :
  let file_data := [x61; x2c; x62] in
  let mime := py "text/csv" in
  prepare_message_content None (Some file_data) (Some mime) =
    text_parts None ++ [text_file_part file_data mime] ∧
  text_file_part file_data mime =
    TextPart (py "Содержимое файла (" ++ mime ++ py "):" ++ newline ++ newline
              ++ take 4000 (Utf8.decode_ignore file_data) ++ py "...") ∧
  ∀ s, Utf8.decode_strict file_data = Some s →
       Utf8.decode_ignore file_data = s ∧
       text_file_part file_data mime
         = TextPart (file_label mime ++ take 4000 s ++ ELLIPSIS) ∧
       ((4000 < length s)%nat → length (take 4000 s) = 4000%nat).
Proof.
  apply text_file_is_decoded_and_truncated;
    [discriminate | discriminate | reflexivity | discriminate].
Defined.

(** C6, as the specification words it, fails on the bytes [FF 41]: the
    code drops the byte [FF], so the text kept is ["A"], where replacing
    it would keep U+FFFD followed by ["A"]; and the part the code emits
    ends in three dots that the specification does not mention. *)
Lemma text_file_replacement_counterexample :
  let file_data := [xff; x41] in
  let mime := py "text/plain" in
  startswith mime (py "image/") = false ∧
  mime ≠ py "application/pdf" ∧
  Utf8.decode_ignore file_data = py "A" ∧
  Utf8.decode_replace file_data = Utf8.replacement_character :: py "A" ∧
  prepare_message_content None (Some file_data) (Some mime)
    = [TextPart (file_label mime ++ py "A" ++ py "...")] ∧
  prepare_message_content None (Some file_data) (Some mime)
    ≠ [text_file_part_as_specified file_data mime].
Proof. repeat split; try reflexivity; discriminate. Qed.

(** A file of 4001 valid characters: the part holds the first 4000. *)
Example text_file_4001 :
  prepare_message_content None (Some (replicate 4001 x61)) (Some (py "text/plain"))
  = [TextPart (file_label (py "text/plain") ++ replicate 4000 97%N ++ py "...")].
Proof. vm_compute. reflexivity. Qed.

(** ** Completion client: proofs *)

Lemma outcome_cases (r : result Response) : failure r ∨ ∃ v, success r v.
Proof.
  destruct r as [e|resp]; [left; constructor|].
  destruct (decide (status_code resp = 200)) as [Hs|Hs]; [|left; by constructor].
  destruct (response_json resp) as [e|body] eqn:Hj; [left; by econstructor|].
  destruct (first_choice_content body) as [e|v] eqn:Hc.
  - left. by eapply content_missing.
  - right. exists v. by econstructor.
Qed.

Lemma failure_not_success r v : failure r → success r v → False.
Proof.
  intros Hf Hs. destruct Hs as [resp body v H200 Hj Hc].
  inversion Hf; subst; try congruence.
Qed.

Lemma add_to_context_after_get b u r c :
  add_to_context (get_user_context b u).2 u r c = add_to_context b u r c.
Proof.
  unfold add_to_context, get_user_context.
  destruct (user_contexts b !! u) as [ctx|] eqn:E; simpl.
  - by rewrite E.
  - rewrite lookup_insert_eq. unfold set_context; simpl.
    by rewrite !insert_insert_eq.
Qed.

Lemma get_user_context_fst b u : (get_user_context b u).1 = history b u.
Proof. apply history_get_user_context. Qed.

Lemma history_after_get b u v :
  history (get_user_context b u).2 v = history b v.
Proof.
  unfold get_user_context. destruct (user_contexts b !! u) eqn:E; simpl; [done|].
  rewrite history_set_context. destruct (decide (u = v)) as [<-|]; [|done].
  unfold history. by rewrite E.
Qed.

(** The body of the [try], one case per way it can end. *)
Lemma call_gemini_api_body_unfold w u text file_data mime p :
  let b := (get_user_context (gemini_bot p) u).2 in
  let content := Parts (prepare_message_content text file_data mime) in
  let messages := request_messages (gemini_bot p) u text file_data mime in
  let p1 := {| gemini_bot := b; log := log p ++ [Post messages] |} in
  call_gemini_api_body w u text file_data mime p =
    match requests_post w messages with
    | inl e => (inl e, p1)
    | inr resp =>
        if status_code resp =? 200 then
          match response_json resp with
          | inl e => (inl e, p1)
          | inr body =>
              match first_choice_content body with
              | inl e => (inl e, p1)
              | inr v =>
                  (inr v,
                   {| gemini_bot :=
                        add_to_context (add_to_context b u (py "user") content)
                                       u (py "assistant") (Reply v);
                      log := log p1 |})
              end
          end
        else (inr (JStr (api_error_message resp)), p1)
    end.
Proof.
  intros b content messages p1.
  unfold call_gemini_api_body, post, with_bot, update_bot, with_bot, emit, lift.
  unfold mbind, M_bind, mret, M_ret.
  subst p1 messages b. unfold request_messages.
  rewrite <- get_user_context_fst.
  destruct (get_user_context (gemini_bot p) u) as [ctx b]; cbn [fst snd gemini_bot log].
  destruct (requests_post w _) as [e|resp]; [done|].
  destruct (status_code resp =? 200); [|done].
  destruct (response_json resp) as [e|body]; [done|].
  by destruct (first_choice_content body).
Qed.

Lemma call_gemini_api_failure w u text file_data mime p :
  failure (requests_post w (request_messages (gemini_bot p) u text file_data mime)) →
  ∃ s, call_gemini_api w u text file_data mime p =
         (inr (JStr s),
          {| gemini_bot := (get_user_context (gemini_bot p) u).2;
             log := log p ++ [Post (request_messages (gemini_bot p) u text file_data mime)] |}).
Proof.
  intros Hf. unfold call_gemini_api, try_except.
  rewrite call_gemini_api_body_unfold. cbv zeta.
  inversion Hf as [e He|resp Hs He|resp e Hs Hj He|resp body e Hs Hj Hc He].
  - exists (exception_message e). unfold exception_message. by destruct (exn_kind e).
  - apply Z.eqb_neq in Hs. rewrite Hs. eauto.
  - apply Z.eqb_eq in Hs. rewrite Hs, Hj.
    exists (exception_message e). unfold exception_message. by destruct (exn_kind e).
  - apply Z.eqb_eq in Hs. rewrite Hs, Hj, Hc.
    exists (exception_message e). unfold exception_message. by destruct (exn_kind e).
Qed.

Lemma call_gemini_api_success w u text file_data mime p v :
  success (requests_post w (request_messages (gemini_bot p) u text file_data mime)) v →
  call_gemini_api w u text file_data mime p =
    (inr v,
     {| gemini_bot :=
          add_to_context
            (add_to_context (gemini_bot p) u (py "user")
               (Parts (prepare_message_content text file_data mime)))
            u (py "assistant") (Reply v);
        log := log p ++ [Post (request_messages (gemini_bot p) u text file_data mime)] |}).
Proof.
  intros Hs. unfold call_gemini_api, try_except.
  rewrite call_gemini_api_body_unfold. cbv zeta.
  inversion Hs as [resp body v' H200 Hj Hc He]; subst v'.
  apply Z.eqb_eq in H200. rewrite H200, Hj, Hc.
  by rewrite add_to_context_after_get.
Qed.

(** No outcome of the exchange makes [call_gemini_api] raise. *)
Lemma call_gemini_api_returns w u text file_data mime p :
  ∃ v, (call_gemini_api w u text file_data mime p).1 = inr v.
Proof.
  destruct (outcome_cases
              (requests_post w (request_messages (gemini_bot p) u text file_data mime)))
    as [Hf|[v Hs]].
  - destruct (call_gemini_api_failure _ _ _ _ _ _ Hf) as [s ->]. eauto.
  - rewrite (call_gemini_api_success _ _ _ _ _ _ _ Hs). eauto.
Qed.

Lemma history_two_appends b u (t1 t2 : turn) :
  1 ≤ max_context_length b →
  let h := history b u in
  let b' := add_to_context (add_to_context b u (role t1) (turn_content t1))
                           u (role t2) (turn_content t2) in
  ∃ k : nat,
    (k ≤ 2)%nat ∧ (k ≤ length h)%nat ∧
    history b' u = drop k (h ++ [t1; t2]) ∧
    (Z.of_nat (length h) + 2 ≤ max_context_length b * 2 → k = 0%nat).
Proof.
  intros Hmax h b'. subst b'.
  rewrite history_add_to_context, max_context_length_add, history_add_to_context.
  fold h. cbv zeta. destruct t1 as [r1 c1], t2 as [r2 c2]. cbn [role turn_content].
  set (m := max_context_length b * 2). assert (2 ≤ m) as Hm by (subst m; lia).
  destruct (Z.gtb_spec (Z.of_nat (length (h ++ [Turn r1 c1]))) m) as [H1|H1].
  - destruct h as [|x h']; [simpl in H1; lia|].
    cbn [app drop] in *. rewrite drop_0.
    rewrite length_cons, length_app in H1. cbn [length] in H1.
    destruct (Z.gtb_spec (Z.of_nat (length ((h' ++ [Turn r1 c1]) ++ [Turn r2 c2]))) m)
      as [H2|H2].
    + exists 2%nat. rewrite !length_app in H2. cbn [length] in *.
      destruct h' as [|y h'']; [simpl in *; lia|].
      repeat split; [lia | simpl; lia | | lia].
      cbn [app drop]. by rewrite !drop_0, <- app_assoc.
    + exists 1%nat. rewrite !length_app in H2. cbn [length] in *. lia.
  - rewrite length_app in H1. cbn [length] in H1.
    destruct (Z.gtb_spec (Z.of_nat (length ((h ++ [Turn r1 c1]) ++ [Turn r2 c2]))) m)
      as [H2|H2].
    + exists 1%nat. rewrite !length_app in H2. cbn [length] in H2.
      repeat split; [lia | lia | | lia].
      by rewrite <- app_assoc.
    + exists 0%nat. rewrite !length_app in H2. cbn [length] in H2.
      repeat split; [lia | lia | ].
      by rewrite drop_0, <- app_assoc.
Qed.

(** A call, whatever its outcome, keeps every history within the bound. *)
Lemma call_gemini_api_bounded w u text file_data mime p :
  bounded (gemini_bot p) →
  bounded (gemini_bot (call_gemini_api w u text file_data mime p).2).
Proof.
  intros Hb.
  destruct (outcome_cases
              (requests_post w (request_messages (gemini_bot p) u text file_data mime)))
    as [Hf|[v Hs]].
  - destruct (call_gemini_api_failure _ _ _ _ _ _ Hf) as [s ->].
    apply (bounded_apply_op _ (Get u) Hb).
  - rewrite (call_gemini_api_success _ _ _ _ _ _ _ Hs). cbn [snd gemini_bot].
    apply (bounded_apply_op _ (Append u _ _)), (bounded_apply_op _ (Append u _ _)), Hb.
Qed.

(** C2. When the user already has a history and the call fails (the
    request raises a timeout, a connection error or anything else, the
    status is not 200, or the body cannot be read), the call returns a
    string and leaves the whole store, hence that user's history, exactly
    as it was. *)
Theorem failed_call_leaves_history
    (w : World) (u : user_id) (text : option pystr) (file_data : option pybytes)
    (mime : option pystr) (p : process) :
  is_Some (user_contexts (gemini_bot p) !! u) →
  failure (requests_post w (request_messages (gemini_bot p) u text file_data mime)) →
  let out := call_gemini_api w u text file_data mime p in
  gemini_bot out.2 = gemini_bot p ∧
  history (gemini_bot out.2) u = history (gemini_bot p) u ∧
  ∃ s, out.1 = inr (JStr s).
Proof.
  intros [ctx Hctx] Hf out. subst out.
  destruct (call_gemini_api_failure _ _ _ _ _ _ Hf) as [s ->].
  cbn [fst snd gemini_bot]. rewrite (get_user_context_known _ _ _ Hctx).
  eauto.
Qed.

(** The same for a user the store has not seen: the history read
    afterwards is still empty. *)
Lemma failed_call_leaves_histories w u text file_data mime p v :
  failure (requests_post w (request_messages (gemini_bot p) u text file_data mime)) →
  history (gemini_bot (call_gemini_api w u text file_data mime p).2) v
    = history (gemini_bot p) v.
Proof.
  intros Hf. destruct (call_gemini_api_failure _ _ _ _ _ _ Hf) as [s ->].
  apply history_after_get.
Qed.

(** C3. When the status is 200 and [choices[0].message.content] can be
    read, the call returns that content and has made exactly the two
    appends, the user turn with the encoded content and then the assistant
    turn with the returned content: the history is the old one followed by
    these two turns, less the [k <= 2] oldest turns evicted by the bound
    (none when two more turns fit). *)
Theorem successful_call_appends_two_turns
    (w : World) (u : user_id) (text : option pystr) (file_data : option pybytes)
    (mime : option pystr) (p : process) (v : json) :
  1 ≤ max_context_length (gemini_bot p) →
  success (requests_post w (request_messages (gemini_bot p) u text file_data mime)) v →
  let out := call_gemini_api w u text file_data mime p in
  let user_turn := Turn (py "user") (Parts (prepare_message_content text file_data mime)) in
  let assistant_turn := Turn (py "assistant") (Reply v) in
  let h := history (gemini_bot p) u in
  out.1 = inr v ∧
  gemini_bot out.2 =
    add_to_context
      (add_to_context (gemini_bot p) u (role user_turn) (turn_content user_turn))
      u (role assistant_turn) (turn_content assistant_turn) ∧
  ∃ k : nat,
    (k ≤ 2)%nat ∧ (k ≤ length h)%nat ∧
    history (gemini_bot out.2) u = drop k (h ++ [user_turn; assistant_turn]) ∧
    (Z.of_nat (length h) + 2 ≤ max_context_length (gemini_bot p) * 2 → k = 0%nat).
Proof.
  intros Hmax Hs out user_turn assistant_turn h. subst out.
  rewrite (call_gemini_api_success _ _ _ _ _ _ _ Hs). cbn [fst snd gemini_bot].
  split; [done|]. split; [done|].
  apply (history_two_appends (gemini_bot p) u user_turn assistant_turn Hmax).
Qed.

Lemma failed_call_witness :
  let p := {| gemini_bot := one_turn_bot; log := [] |} in
  let out := call_gemini_api timeout_world 7 (Some (py "again")) None None p in
  gemini_bot out.2 = gemini_bot p ∧
  history (gemini_bot out.2) 7 = history (gemini_bot p) 7 ∧
  ∃ s, out.1 = inr (JStr s).
Proof.
  apply failed_call_leaves_history.
  - eexists. apply lookup_insert_eq.
  - apply post_raises.
Defined.

Lemma successful_call_witness :
  let p := {| gemini_bot := init; log := [] |} in
  let out := call_gemini_api (replying_world (py "yo")) 7 (Some (py "hi")) None None p in
  let user_turn := Turn (py "user") (Parts (prepare_message_content (Some (py "hi")) None None)) in
  let assistant_turn := Turn (py "assistant") (Reply (JStr (py "yo"))) in
  let h := history (gemini_bot p) 7 in
  out.1 = inr (JStr (py "yo")) ∧
  gemini_bot out.2 =
    add_to_context
      (add_to_context (gemini_bot p) 7 (role user_turn) (turn_content user_turn))
      7 (role assistant_turn) (turn_content assistant_turn) ∧
  ∃ k : nat,
    (k ≤ 2)%nat ∧ (k ≤ length h)%nat ∧
    history (gemini_bot out.2) 7 = drop k (h ++ [user_turn; assistant_turn]) ∧
    (Z.of_nat (length h) + 2 ≤ max_context_length (gemini_bot p) * 2 → k = 0%nat).
Proof.
  apply successful_call_appends_two_turns.
  - simpl. lia.
  - eapply status_200; reflexivity.
Defined.

(** The first exchange of a new user: the history becomes the user turn
    followed by the assistant turn. *)
Example first_exchange :
  let out := call_gemini_api (replying_world (py "yo")) 7 (Some (py "hi")) None None
               {| gemini_bot := init; log := [] |} in
  out.1 = inr (JStr (py "yo")) ∧
  history (gemini_bot out.2) 7 =
    [Turn (py "user") (Parts [TextPart (py "hi")]);
     Turn (py "assistant") (Reply (JStr (py "yo")))] ∧
  log out.2 = [Post [Turn (py "user") (Parts [TextPart (py "hi")])]].
Proof. vm_compute. done. Qed.

(** C4, where the code departs from it. A reply with status 200 whose
    [choices[0].message.content] is JSON [null] makes [call_gemini_api]
    return [None], which is not a string, and store [None] as the
    assistant's turn. *)
Theorem null_content_is_returned_as_is :
  let out := call_gemini_api null_content_world 7 (Some (py "hi")) None None
               {| gemini_bot := init; log := [] |} in
  out.1 = inr JNull ∧
  (¬ ∃ s, out.1 = inr (JStr s)) ∧
  history (gemini_bot out.2) 7 =
    [Turn (py "user") (Parts [TextPart (py "hi")]);
     Turn (py "assistant") (Reply JNull)].
Proof.
  assert (call_gemini_api null_content_world 7 (Some (py "hi")) None None
            {| gemini_bot := init; log := [] |}
          = (inr JNull,
             {| gemini_bot :=
                  add_to_context
                    (add_to_context init 7 (py "user") (Parts [TextPart (py "hi")]))
                    7 (py "assistant") (Reply JNull);
                log := [Post [Turn (py "user") (Parts [TextPart (py "hi")])]] |})) as E.
  { apply (call_gemini_api_success null_content_world 7 (Some (py "hi")) None None
             {| gemini_bot := init; log := [] |} JNull).
    eapply status_200; reflexivity. }
  cbv zeta. rewrite E. cbn [fst snd gemini_bot].
  split; [done|]. split; [by intros [s Hs]|]. by vm_compute.
Qed.

(** What is true of C4 on every input: the call never raises, and every
    failed exchange is answered with a string. *)
Lemma call_gemini_api_failure_is_text w u text file_data mime p :
  (∃ v, (call_gemini_api w u text file_data mime p).1 = inr v) ∧
  (failure (requests_post w (request_messages (gemini_bot p) u text file_data mime)) →
   ∃ s, (call_gemini_api w u text file_data mime p).1 = inr (JStr s)) ∧
  (∀ s, success (requests_post w (request_messages (gemini_bot p) u text file_data mime))
          (JStr s) →
        (call_gemini_api w u text file_data mime p).1 = inr (JStr s)).
Proof.
  split; [apply call_gemini_api_returns|]. split.
  - intros Hf. destruct (call_gemini_api_failure _ _ _ _ _ _ Hf) as [s ->]. eauto.
  - intros s Hs. by rewrite (call_gemini_api_success _ _ _ _ _ _ _ Hs).
Qed.

(** ** Relay: proofs *)

Section Chunks.

Context {A : Type}.
Variable c : nat.
Hypothesis c_pos : (0 < c)%nat.

Lemma slices_are_chunks (s : list A) :
  (λ i, slice i (i + c) s) <$> range 0 (length s) c
  = chunk c s <$> seq 0 (ceil_div (length s) c).
Proof.
  unfold range, ceil_div. rewrite Nat.sub_0_r, <- list_fmap_compose.
  apply list_fmap_ext. intros _ k _. unfold compose, slice, chunk.
  f_equal. lia.
Qed.

Lemma concat_chunks (s : list A) (m : nat) :
  concat (chunk c s <$> seq 0 m) = take (m * c) s.
Proof.
  induction m as [|m IH]; [done|].
  rewrite seq_S, fmap_app, concat_app, IH. cbn [fmap list_fmap concat].
  rewrite app_nil_r. unfold chunk. rewrite take_take_drop. f_equal. lia.
Qed.

Lemma ceil_div_covers (n : nat) : (n ≤ ceil_div n c * c)%nat.
Proof.
  unfold ceil_div.
  pose proof (Nat.div_mod_eq (n + c - 1) c) as E.
  pose proof (Nat.mod_upper_bound (n + c - 1) c) as U. nia.
Qed.

Lemma ceil_div_small (n : nat) : (0 < n ≤ c)%nat → ceil_div n c = 1%nat.
Proof.
  intros H. unfold ceil_div.
  pose proof (Nat.div_mod_eq (n + c - 1) c) as E.
  pose proof (Nat.mod_upper_bound (n + c - 1) c) as U. nia.
Qed.

Lemma ceil_div_large (n : nat) : (c < n)%nat → (2 ≤ ceil_div n c)%nat.
Proof.
  intros H. unfold ceil_div.
  pose proof (Nat.div_mod_eq (n + c - 1) c) as E.
  pose proof (Nat.mod_upper_bound (n + c - 1) c) as U. nia.
Qed.

Lemma ceil_div_succ : ceil_div (S c) c = 2%nat.
Proof.
  unfold ceil_div.
  pose proof (Nat.div_mod_eq (S c + c - 1) c) as E.
  pose proof (Nat.mod_upper_bound (S c + c - 1) c) as U. nia.
Qed.

Lemma concat_all_chunks (s : list A) :
  concat (chunk c s <$> seq 0 (ceil_div (length s) c)) = s.
Proof. rewrite concat_chunks. apply take_ge, ceil_div_covers. Qed.

Lemma lookup_chunks (s : list A) (m k : nat) (piece : list A) :
  (chunk c s <$> seq 0 m) !! k = Some piece →
  (k < m)%nat ∧ piece = take c (drop (k * c) s).
Proof.
  rewrite list_lookup_fmap. intros H.
  destruct (seq 0 m !! k) as [k'|] eqn:E; [|done].
  apply lookup_seq in E as [-> Hk]. by injection H as <-.
Qed.

Lemma length_chunk (s : list A) (k : nat) :
  length (chunk c s k) = (c `min` (length s - k * c))%nat.
Proof. unfold chunk. by rewrite length_take, length_drop. Qed.

End Chunks.

Lemma MESSAGE_LIMIT_pos : (0 < MESSAGE_LIMIT)%nat.
Proof. unfold MESSAGE_LIMIT. lia. Qed.

Lemma relayed_chunks (s : pystr) :
  (MESSAGE_LIMIT < length s)%nat →
  relayed s = chunk MESSAGE_LIMIT s <$> seq 0 (ceil_div (length s) MESSAGE_LIMIT).
Proof.
  intros H. unfold relayed.
  destruct (Nat.ltb_spec MESSAGE_LIMIT (length s)); [|lia].
  apply slices_are_chunks, MESSAGE_LIMIT_pos.
Qed.

Lemma relayed_short (s : pystr) :
  (length s ≤ MESSAGE_LIMIT)%nat → relayed s = [s].
Proof.
  intros H. unfold relayed.
  destruct (Nat.ltb_spec MESSAGE_LIMIT (length s)); [lia|done].
Qed.

Lemma bind_lift_inr {A B} (a : A) (k : A → M B) (p : process) :
  (lift (inr a) ≫= k) p = k a p.
Proof. reflexivity. Qed.

Lemma bind_lift_inl {A B} (e : exn) (k : A → M B) (p : process) :
  (lift (inl e) ≫= k) p = (inl e, p).
Proof. reflexivity. Qed.

Lemma for_each_slices (chat : Z) (s : pystr) (l : list nat) (p : process) :
  for_each l (λ i, piece ← lift (py_slice (JStr s) i (i + MESSAGE_LIMIT));
                   send_message chat piece None) p
  = (inr tt,
     {| gemini_bot := gemini_bot p;
        log := log p ++ ((λ i, SendMessage chat (JStr (slice i (i + MESSAGE_LIMIT) s)) None)
                           <$> l) |}).
Proof.
  revert p. induction l as [|i l IH]; intros p.
  - cbn [for_each fmap list_fmap]. rewrite app_nil_r. by destruct p.
  - cbn [for_each]. unfold mbind at 1, M_bind at 1.
    unfold mbind, M_bind, lift, send_message, emit, py_slice.
    rewrite IH. cbn [gemini_bot log fmap list_fmap].
    by rewrite <- app_assoc.
Qed.

Lemma relay_string (chat : Z) (s : pystr) (p : process) :
  relay chat (JStr s) p
  = (inr tt,
     {| gemini_bot := gemini_bot p;
        log := log p ++ ((λ m, SendMessage chat (JStr m) None) <$> relayed s) |}).
Proof.
  unfold relay, relayed. cbn [py_len]. rewrite bind_lift_inr.
  destruct (MESSAGE_LIMIT <? length s)%nat.
  - rewrite for_each_slices. by rewrite <- list_fmap_compose.
  - done.
Qed.

(** C5, as the code has it. A string response is sent as the messages
    [relayed s]: their concatenation in send order is the response; there
    are [max 1 (ceil (len / 4096))] of them, that is [ceil (len / 4096)]
    for every non-empty response and one (empty) message for the empty
    one; the [k]-th is the slice [s[4096 k : 4096 k + 4096]], so all but
    the last hold 4096 characters.  A response of at most 4096 characters
    goes out as one message, one of 4097 as two, the second holding one
    character. *)
Theorem relay_sends_consecutive_chunks (chat : Z) (s : pystr) (p : process) :
  let sent := relayed s in
  relay chat (JStr s) p
    = (inr tt,
       {| gemini_bot := gemini_bot p;
          log := log p ++ ((λ m, SendMessage chat (JStr m) None) <$> sent) |}) ∧
  MESSAGE_LIMIT = 4096%nat ∧
  concat sent = s ∧
  length sent = (1 `max` ceil_div (length s) MESSAGE_LIMIT)%nat ∧
  (s ≠ [] → length sent = ceil_div (length s) MESSAGE_LIMIT) ∧
  (∀ k piece, sent !! k = Some piece →
     piece = take MESSAGE_LIMIT (drop (k * MESSAGE_LIMIT) s) ∧
     length piece = (MESSAGE_LIMIT `min` (length s - k * MESSAGE_LIMIT))%nat) ∧
  ((length s ≤ MESSAGE_LIMIT)%nat → sent = [s]) ∧
  (length s = S MESSAGE_LIMIT →
     ∃ first last, sent = [first; [last]] ∧ length first = MESSAGE_LIMIT).
Proof.
  intros sent. subst sent. pose proof MESSAGE_LIMIT_pos as Hpos.
  split; [apply relay_string|]. split; [done|].
  destruct (Nat.le_gt_cases (length s) MESSAGE_LIMIT) as [Hshort|Hlong].
  - rewrite (relayed_short s Hshort). repeat split.
    + cbn [concat]. apply app_nil_r.
    + destruct s as [|x s]; [by rewrite Nat.max_l by (cbn [length]; unfold ceil_div;
        rewrite Nat.div_small by lia; lia)|].
      rewrite (ceil_div_small MESSAGE_LIMIT Hpos); [done|].
      cbn [length] in *. lia.
    + intros Hne. destruct s as [|x s]; [done|].
      rewrite (ceil_div_small MESSAGE_LIMIT Hpos); [done|].
      cbn [length] in *. lia.
    + destruct k as [|k]; [|done]. injection H as <-.
      rewrite Nat.mul_0_l, drop_0. symmetry. by apply take_ge.
    + destruct k as [|k]; [|done]. injection H as <-. lia.
    + intros H. lia.
  - rewrite (relayed_chunks s Hlong).
    pose proof (ceil_div_large MESSAGE_LIMIT Hpos (length s) Hlong) as Hn.
    repeat split.
    + by apply concat_all_chunks.
    + rewrite length_fmap, length_seq. lia.
    + intros _. by rewrite length_fmap, length_seq.
    + by apply lookup_chunks in H as [_ ->].
    + apply lookup_chunks in H as [_ ->]. by rewrite length_take, length_drop.
    + intros H. lia.
    + intros H. rewrite H, (ceil_div_succ MESSAGE_LIMIT Hpos).
      cbn [seq fmap list_fmap].
      pose proof (length_chunk MESSAGE_LIMIT s 0) as H0.
      pose proof (length_chunk MESSAGE_LIMIT s 1) as H1.
      destruct (chunk MESSAGE_LIMIT s 1) as [|last [|y rest]] eqn:E;
        cbn [length] in H1; [lia| |lia].
      exists (chunk MESSAGE_LIMIT s 0), last. split; [done|]. lia.
Qed.

(** C5, as the specification words it, fails on the empty response:
    [ceil (0 / 4096)] is 0, yet one message, the empty text, is sent. *)
Lemma relay_empty_counterexample :
  let out := relay 1 (JStr []) {| gemini_bot := init; log := [] |} in
  log out.2 = [SendMessage 1 (JStr []) None] ∧
  length (relayed []) = 1%nat ∧
  ceil_div (length (@nil char)) MESSAGE_LIMIT = 0%nat ∧
  ¬ (∀ s : pystr, length (relayed s) = ceil_div (length s) MESSAGE_LIMIT).
Proof.
  repeat split; try by vm_compute.
  intros H. specialize (H []). vm_compute in H. discriminate.
Qed.

Example relay_4097 :
  relayed (replicate 4097 97%N) = [replicate 4096 97%N; [97%N]].
Proof. by vm_compute. Qed.

Example relay_4096 :
  relayed (replicate 4096 97%N) = [replicate 4096 97%N].
Proof. by vm_compute. Qed.

(** ** Document handler: proofs *)

Ltac tidy_log := cbn [gemini_bot log]; rewrite <- ?app_assoc; cbn [app].

(** C7. When the platform reports a size above 20 MiB, when no MIME type
    can be determined, or when the type is neither in the supported list
    nor starts with [text/], the handler sends the typing action, asks for
    the file's metadata and sends one message of rejection: it downloads
    nothing, posts nothing to the API and leaves the store as it was. *)
Theorem unacceptable_document_is_rejected
    (w : World) (message : Message) (doc : Document) (info : File) (size : Z)
    (p : process) :
  document message = Some doc →
  bot_get_file w (file_id doc) = inr info →
  file_size info = Some size →
  rejected w doc size →
  ∃ text parse_mode,
    document_handler w message p
      = (inr tt,
         {| gemini_bot := gemini_bot p;
            log := log p ++ [SendChatAction (chat_id message) (py "typing");
                             GetFile (file_id doc);
                             SendMessage (chat_id message) (JStr text) parse_mode] |}) ∧
    text ∈ [TOO_LARGE_MESSAGE; UNKNOWN_TYPE_MESSAGE; UNSUPPORTED_TYPE_MESSAGE] ∧
    (size > MAX_DOCUMENT_SIZE → text = TOO_LARGE_MESSAGE) ∧
    MAX_DOCUMENT_SIZE = 20971520.
Proof.
  intros Hdoc Hinfo Hsize Hrej.
  unfold document_handler, try_except, send_chat_action, get_file, send_message.
  unfold emit, mbind, M_bind, mret, M_ret. rewrite Hdoc. cbn [lift gemini_bot log].
  rewrite Hinfo, Hsize. cbn [lift gemini_bot log].
  destruct (Z.gtb_spec size MAX_DOCUMENT_SIZE) as [Hbig|Hsmall].
  { exists TOO_LARGE_MESSAGE, None. tidy_log. split; [reflexivity|].
    split; [apply list_elem_of_here|]. split; reflexivity. }
  assert (∀ q : process,
            (if truthy (mime_type doc)
             then λ p0 : process, (inr (mime_type doc), p0)
             else lift (mimetypes_guess_type w (file_name doc))) q
            = (resolve_mime_type w doc, q)) as ->.
  { intros q. unfold resolve_mime_type, lift. by destruct (truthy (mime_type doc)). }
  destruct Hrej as [Hbig|mime Hres Hmime|mime Hres Hne Hsup Htxt]; [lia| |].
  - exists UNKNOWN_TYPE_MESSAGE, None. rewrite Hres, Hmime. cbn [negb]. tidy_log.
    split; [reflexivity|].
    split; [apply list_elem_of_further, list_elem_of_here|].
    split; [lia|reflexivity].
  - exists UNSUPPORTED_TYPE_MESSAGE, (Some (py "Markdown")). rewrite Hres.
    destruct mime as [|c cs]; [done|]. cbn [truthy negb from_option id].
    rewrite Htxt, bool_decide_eq_false_2 by done. cbn [negb andb]. tidy_log.
    split; [reflexivity|].
    split; [do 2 apply list_elem_of_further; apply list_elem_of_here|].
    split; [lia|reflexivity].
Qed.

Lemma unacceptable_document_witness :
  ∃ text parse_mode,
    document_handler small_file_world zip_message {| gemini_bot := init; log := [] |}
      = (inr tt,
         {| gemini_bot := init;
            log := [] ++ [SendChatAction 7 (py "typing");
                          GetFile (file_id zip_document);
                          SendMessage 7 (JStr text) parse_mode] |}) ∧
    text ∈ [TOO_LARGE_MESSAGE; UNKNOWN_TYPE_MESSAGE; UNSUPPORTED_TYPE_MESSAGE] ∧
    (1024 > MAX_DOCUMENT_SIZE → text = TOO_LARGE_MESSAGE) ∧
    MAX_DOCUMENT_SIZE = 20971520.
Proof.
  apply (unacceptable_document_is_rejected small_file_world zip_message zip_document
           {| file_size := Some 1024; file_path := Some (py "documents/file_1") |} 1024
           {| gemini_bot := init; log := [] |});
    [reflexivity | reflexivity | reflexivity |].
  apply (type_unsupported _ _ _ (py "application/zip")); [reflexivity | discriminate | | reflexivity].
  unfold SUPPORTED_DOCUMENT_TYPES. rewrite !elem_of_cons, elem_of_nil.
  intros [H|[H|[H|[H|[H|[H|H]]]]]]; try discriminate; done.
Defined.

(** ** Context store: further properties *)

Lemma lookup_apply_op_other (b : GeminiBot) (o : store_op) (v : user_id) :
  op_user o ≠ v → user_contexts (apply_op b o) !! v = user_contexts b !! v.
Proof.
  intros Hne. destruct o as [u|u r c|u]; cbn [apply_op op_user] in *.
  - unfold get_user_context. destruct (user_contexts b !! u); simpl; [done|].
    by rewrite lookup_insert_ne.
  - unfold add_to_context, get_user_context.
    destruct (user_contexts b !! u); simpl; rewrite !lookup_insert_ne; done.
  - unfold clear_context. destruct (user_contexts b !! u); simpl; [|done].
    by rewrite lookup_insert_ne.
Qed.

Lemma history_clear_context (b : GeminiBot) (u v : user_id) :
  history (clear_context b u) v = if decide (u = v) then [] else history b v.
Proof.
  unfold clear_context, history.
  destruct (user_contexts b !! u) as [ctx|] eqn:E; simpl.
  - rewrite lookup_insert. by destruct (decide (u = v)).
  - destruct (decide (u = v)) as [<-|]; [by rewrite E|done].
Qed.

(** X1. An operation about one user leaves what the store holds for every
    other user as it was. *)
Theorem store_ops_touch_one_user (b : GeminiBot) (o : store_op) (v : user_id) :
  op_user o ≠ v →
  user_contexts (apply_op b o) !! v = user_contexts b !! v ∧
  history (apply_op b o) v = history b v.
Proof.
  intros Hne. pose proof (lookup_apply_op_other b o v Hne) as E.
  split; [done|]. unfold history. by rewrite E.
Qed.

Lemma store_ops_touch_one_user_witness :
  user_contexts (apply_op one_turn_bot (Clear 7)) !! 8 = user_contexts one_turn_bot !! 8 ∧
  history (apply_op one_turn_bot (Clear 7)) 8 = history one_turn_bot 8.
Proof. apply store_ops_touch_one_user. discriminate. Defined.

(** X2. No operation removes a user from the store: [get] and [append]
    register their user, [clear] keeps the set of users as it is (it
    empties the list of a known user and does nothing for an unknown
    one). *)
Theorem store_keeps_its_users (b : GeminiBot) (u : user_id) (r : pystr) (c : content) :
  dom (user_contexts (get_user_context b u).2) = {[u]} ∪ dom (user_contexts b) ∧
  dom (user_contexts (add_to_context b u r c)) = {[u]} ∪ dom (user_contexts b) ∧
  dom (user_contexts (clear_context b u)) = dom (user_contexts b) ∧
  (user_contexts b !! u = None → clear_context b u = b).
Proof.
  unfold add_to_context, get_user_context, clear_context.
  destruct (user_contexts b !! u) as [ctx|] eqn:E; simpl; rewrite ?dom_insert_L.
  - apply elem_of_dom_2 in E. repeat split; set_solver.
  - repeat split; set_solver.
Qed.

(** Reading a history changes no history: it returns what the store would
    show, leaves the user registered with exactly that list, and reading
    again changes nothing more. *)
Lemma get_user_context_is_a_read (b : GeminiBot) (u : user_id) :
  let b' := (get_user_context b u).2 in
  (get_user_context b u).1 = history b u ∧
  user_contexts b' !! u = Some (history b u) ∧
  (∀ v, history b' v = history b v) ∧
  get_user_context b' u = (history b u, b').
Proof.
  intros b'. subst b'. unfold get_user_context, history.
  destruct (user_contexts b !! u) as [ctx|] eqn:E; simpl.
  - rewrite E. repeat split; try done.
  - rewrite lookup_insert_eq. repeat split; try done.
    intros v. destruct (decide (u = v)) as [<-|Hne].
    + by rewrite lookup_insert_eq, E.
    + by rewrite lookup_insert_ne.
Qed.

(** X3. On a store within its bound, appending puts the new turn last and,
    when the list was full, drops exactly the oldest turn; the turns kept
    stay in their order. *)
Theorem append_drops_only_the_oldest
    (b : GeminiBot) (u : user_id) (r : pystr) (c : content) :
  bounded b →
  1 ≤ max_context_length b →
  let h := history b u in
  let full := bool_decide (Z.of_nat (length h) = max_context_length b * 2) in
  history (add_to_context b u r c) u = (if full then drop 1 h else h) ++ [Turn r c] ∧
  Z.of_nat (length (history (add_to_context b u r c) u))
    = Z.min (Z.of_nat (length h) + 1) (max_context_length b * 2).
Proof.
  intros Hb Hmax h full. subst full.
  apply bounded_history in Hb as [_ Hb]. specialize (Hb u). fold h in Hb.
  rewrite history_add_to_context. fold h. cbv zeta.
  rewrite length_app. cbn [length].
  destruct (Z.gtb_spec (Z.of_nat (length h + 1)) (max_context_length b * 2)) as [H|H].
  - rewrite bool_decide_eq_true_2 by lia.
    destruct h as [|x h']; [cbn [length] in *; lia|].
    cbn [app drop]. rewrite !drop_0, length_app. cbn [length] in *. split; [done|lia].
  - rewrite bool_decide_eq_false_2 by lia. rewrite length_app. cbn [length]. split; [done|lia].
Qed.

Lemma append_drops_only_the_oldest_witness :
  let h := history one_turn_bot 7 in
  let full := bool_decide (Z.of_nat (length h) = max_context_length one_turn_bot * 2) in
  history (add_to_context one_turn_bot 7 (py "assistant") (Reply (JStr (py "yo")))) 7
    = (if full then drop 1 h else h) ++ [Turn (py "assistant") (Reply (JStr (py "yo")))] ∧
  Z.of_nat (length (history (add_to_context one_turn_bot 7 (py "assistant")
                               (Reply (JStr (py "yo")))) 7))
    = Z.min (Z.of_nat (length h) + 1) (max_context_length one_turn_bot * 2).
Proof.
  apply append_drops_only_the_oldest.
  - split; [simpl; lia|]. intros u ctx. unfold one_turn_bot. simpl.
    rewrite lookup_insert. destruct (decide (7 = u)); [|by rewrite lookup_empty].
    intros [= <-]. simpl. lia.
  - simpl. lia.
Defined.

(** ** Exchanges come in pairs *)

Lemma paired_app_gen (l1 l2 : list turn) :
  paired l2 →
  (paired l1 → paired (l1 ++ l2)) ∧
  (∀ a, paired (a :: l1) → paired (a :: l1 ++ l2)).
Proof.
  intros H2. induction l1 as [|b l1 [IH1 IH2]].
  - split; [done|]. intros a [].
  - split; [apply IH2|]. intros a (Ha & Hb & Hl). cbn [app paired]. auto.
Qed.

Lemma paired_app (l1 l2 : list turn) : paired l1 → paired l2 → paired (l1 ++ l2).
Proof. intros H1 H2. by apply paired_app_gen. Qed.

Lemma paired_even_gen (l : list turn) :
  (paired l → ∃ k, length l = (2 * k)%nat) ∧
  (∀ a, paired (a :: l) → ∃ k, length (a :: l) = (2 * k)%nat).
Proof.
  induction l as [|b l [IH1 IH2]].
  - split; [by exists 0%nat|]. intros a [].
  - split; [apply IH2|]. intros a (_ & _ & Hl).
    destruct (IH1 Hl) as [k Hk]. exists (S k). cbn [length]. lia.
Qed.

Lemma paired_even (l : list turn) : paired l → ∃ k, length l = (2 * k)%nat.
Proof. apply paired_even_gen. Qed.

Ltac case_gtb H :=
  match goal with
  | |- context [if ?x >? ?y then _ else _] => destruct (Z.gtb_spec x y) as [H|H]
  end.

Lemma paired_after_exchange (b : GeminiBot) (u : user_id) (c1 c2 : content) :
  bounded b →
  1 ≤ max_context_length b →
  paired (history b u) →
  paired (history (add_to_context (add_to_context b u (py "user") c1)
                                  u (py "assistant") c2) u).
Proof.
  intros Hb Hmax Hp. apply bounded_history in Hb as [_ Hb]. specialize (Hb u).
  rewrite history_add_to_context, max_context_length_add, history_add_to_context.
  cbv zeta. destruct (paired_even _ Hp) as [k Hk].
  set (h := history b u) in *. set (m := max_context_length b * 2) in *.
  assert (paired [Turn (py "user") c1; Turn (py "assistant") c2]) as Hnew by done.
  destruct (Z.gtb_spec (Z.of_nat (length (h ++ [Turn (py "user") c1]))) m) as [H1|H1];
    rewrite length_app in H1; cbn [length] in H1.
  - destruct h as [|x [|y h']]; [cbn [length] in *; lia | cbn [length] in *; lia |].
    cbn [app drop]. case_gtb H2.
    + cbn [app drop]. rewrite <- app_assoc.
      apply paired_app; [|done]. by destruct Hp as (_ & _ & Hp).
    + cbn [length] in H2. rewrite !length_app in H2. cbn [length] in *. lia.
  - case_gtb H2.
    + rewrite !length_app in H2. cbn [length] in H2. subst m. lia.
    + rewrite <- app_assoc. by apply paired_app.
Qed.

Lemma well_formed_init : well_formed init.
Proof.
  split; [apply bounded_init|]. split; [simpl; lia|].
  intros u. unfold history. simpl. by rewrite lookup_empty.
Qed.

Lemma well_formed_perform (p : process) (a : action) :
  well_formed (gemini_bot p) → well_formed (gemini_bot (perform p a)).
Proof.
  intros (Hb & Hmax & Hp). destruct a as [w u text file_data mime|u]; cbn [perform].
  - destruct (outcome_cases
                (requests_post w (request_messages (gemini_bot p) u text file_data mime)))
      as [Hf|[v Hs]].
    + destruct (call_gemini_api_failure _ _ _ _ _ _ Hf) as [s ->]. cbn [snd gemini_bot].
      split; [apply (bounded_apply_op _ (Get u) Hb)|].
      split; [by rewrite max_context_length_get|].
      intros v. by rewrite history_after_get.
    + rewrite (call_gemini_api_success _ _ _ _ _ _ _ Hs). cbn [snd gemini_bot].
      split; [apply (bounded_apply_op _ (Append u _ _)),
                    (bounded_apply_op _ (Append u _ _)), Hb|].
      split; [by rewrite !max_context_length_add|].
      intros x. destruct (decide (u = x)) as [<-|Hne].
      * by apply paired_after_exchange.
      * by rewrite !history_add_to_context_other.
  - cbn [gemini_bot].
    split; [apply (bounded_apply_op _ (Clear u) Hb)|].
    split; [by rewrite max_context_length_clear|].
    intros x. rewrite history_clear_context. by destruct (decide (u = x)).
Qed.

(** X4. Whatever messages are answered (with whatever outcome) and whatever
    is cleared, starting from the empty store, every history is a list of
    exchanges, a user turn followed by the assistant's turn; so its length
    is even, and at most 20. *)
Theorem histories_are_lists_of_exchanges (actions : list action) (u : user_id) :
  let h := history (gemini_bot (perform_all actions {| gemini_bot := init; log := [] |})) u in
  paired h ∧ ∃ k : nat, length h = (2 * k)%nat ∧ (k ≤ 10)%nat.
Proof.
  intros h.
  assert (well_formed (gemini_bot (perform_all actions {| gemini_bot := init; log := [] |}))
          ∧ max_context_length
              (gemini_bot (perform_all actions {| gemini_bot := init; log := [] |})) = 10)
    as [(Hb & _ & Hp) Hmax].
  { unfold perform_all.
    assert (well_formed (gemini_bot {| gemini_bot := init; log := [] |})
            ∧ max_context_length (gemini_bot {| gemini_bot := init; log := [] |}) = 10)
      as H by (split; [apply well_formed_init|done]).
    revert H. generalize {| gemini_bot := init; log := [] |}.
    induction actions as [|a actions IH]; intros p [Hw Hm]; [done|].
    cbn [foldl]. apply IH. split; [by apply well_formed_perform|].
    rewrite <- Hm. destruct a as [w v text file_data mime|v]; cbn [perform gemini_bot].
    - destruct (outcome_cases
                  (requests_post w (request_messages (gemini_bot p) v text file_data mime)))
        as [Hf|[x Hs]].
      + destruct (call_gemini_api_failure _ _ _ _ _ _ Hf) as [s ->].
        apply max_context_length_get.
      + rewrite (call_gemini_api_success _ _ _ _ _ _ _ Hs). cbn [snd gemini_bot].
        by rewrite !max_context_length_add.
    - apply max_context_length_clear. }
  specialize (Hp u). fold h in Hp. split; [done|].
  destruct (paired_even _ Hp) as [k Hk]. exists k. split; [done|].
  apply bounded_history in Hb as [_ Hb]. specialize (Hb u). fold h in Hb. lia.
Qed.

(** ** Content encoder: further properties *)

Lemma startswith_nonempty (s prefix : pystr) :
  prefix ≠ [] → startswith s prefix = true → s ≠ [].
Proof.
  intros Hp H ->. unfold startswith in H. apply bool_decide_eq_true in H.
  rewrite take_nil in H. by subst prefix.
Qed.

Lemma image_prefix_nonempty : py "image/" ≠ [].
Proof. discriminate. Qed.

(** X5. The result always has one or two parts; a non-empty text comes first
    and is passed on verbatim, and without it there is exactly one part. *)
Theorem prepare_message_content_shape
    (text : option pystr) (file_data : option pybytes) (mime : option pystr) :
  let parts := prepare_message_content text file_data mime in
  (1 ≤ length parts ≤ 2)%nat ∧
  (truthy text = true →
     ∃ rest, parts = TextPart (default [] text) :: rest ∧ (length rest ≤ 1)%nat) ∧
  (truthy text = false → length parts = 1%nat).
Proof.
  intros parts. subst parts. unfold prepare_message_content.
  generalize (@slice_to char 4000). intros cut.
  assert (∀ (t : pystr) (rest : list part), (length rest ≤ 1)%nat →
            (1 ≤ length (TextPart t :: rest) ≤ 2)%nat ∧
            (true = true → ∃ rest', TextPart t :: rest = TextPart t :: rest'
                                    ∧ (length rest' ≤ 1)%nat) ∧
            (true = false → length (TextPart t :: rest) = 1%nat)) as Hyes.
  { intros t rest Hr. split; [cbn [length]; lia|]. split; [|discriminate].
    intros _. exists rest. split; [reflexivity|exact Hr]. }
  assert (∀ (t : pystr) (x : part),
            (1 ≤ length [x] ≤ 2)%nat ∧
            (false = true → ∃ rest, [x] = TextPart t :: rest ∧ (length rest ≤ 1)%nat) ∧
            (false = false → length [x] = 1%nat)) as Hno.
  { intros t x. split; [cbn [length]; lia|]. split; [discriminate|reflexivity]. }
  assert (∀ x : part, (length [x] ≤ 1)%nat) as H1 by (intros; cbn [length]; lia).
  assert (length (@nil part) ≤ 1)%nat as H0 by (cbn [length]; lia).
  destruct (truthy text); destruct (truthy file_data && truthy mime);
    try destruct (startswith (default [] mime) (py "image/"));
    try destruct (truthy (encode_file_to_base64 (default [] file_data) (default [] mime)));
    try destruct (text_content (default [] file_data) (default [] mime));
    cbn [app];
    first [ apply Hno | apply Hyes; first [apply H0 | apply H1] ].
Qed.

Lemma b64encode_length_gen (bs : pybytes) :
  length (Base64.b64encode bs) = (4 * ((length bs + 2) / 3))%nat ∧
  (∀ a, length (Base64.b64encode (a :: bs)) = (4 * ((length (a :: bs) + 2) / 3))%nat) ∧
  (∀ a b, length (Base64.b64encode (a :: b :: bs))
          = (4 * ((length (a :: b :: bs) + 2) / 3))%nat).
Proof.
  induction bs as [|c bs (IH0 & IH1 & IH2)].
  - repeat split.
  - split; [apply IH1|]. split; [intros a; apply IH2|]. intros a b.
    change (Base64.b64encode (a :: b :: c :: bs))
      with ([Base64.sextet ((Byte.to_N a * 65536 + Byte.to_N b * 256 + Byte.to_N c) / 262144);
             Base64.sextet ((Byte.to_N a * 65536 + Byte.to_N b * 256 + Byte.to_N c) / 4096);
             Base64.sextet ((Byte.to_N a * 65536 + Byte.to_N b * 256 + Byte.to_N c) / 64);
             Base64.sextet (Byte.to_N a * 65536 + Byte.to_N b * 256 + Byte.to_N c)]
              ++ Base64.b64encode bs).
    rewrite length_app, IH0. cbn [length].
    replace (S (S (S (length bs))) + 2)%nat with ((length bs + 2) + 1 * 3)%nat by lia.
    rewrite Nat.div_add by lia. lia.
Qed.

Lemma sextet_in_alphabet (n : N) : In (Base64.sextet n) Base64.alphabet.
Proof.
  unfold Base64.sextet. apply nth_In.
  assert (length Base64.alphabet = 64%nat) as -> by reflexivity.
  pose proof (N.mod_upper_bound n 64). lia.
Qed.

Lemma b64encode_chars_gen (bs : pybytes) :
  let ok := λ c : char, In c Base64.alphabet ∨ c = Base64.pad in
  Forall ok (Base64.b64encode bs) ∧
  (∀ a, Forall ok (Base64.b64encode (a :: bs))) ∧
  (∀ a b, Forall ok (Base64.b64encode (a :: b :: bs))).
Proof.
  intros ok.
  assert (∀ n, ok (Base64.sextet n)) as Hs by (intros n; left; apply sextet_in_alphabet).
  assert (ok Base64.pad) as Hp by (right; exact eq_refl).
  induction bs as [|c bs (IH0 & IH1 & IH2)].
  - split; [by apply Forall_nil|]. split.
    + intros a. cbn [Base64.b64encode].
      apply Forall_cons; split; [apply Hs|]. apply Forall_cons; split; [apply Hs|].
      apply Forall_cons; split; [apply Hp|]. apply Forall_cons; split; [apply Hp|].
      by apply Forall_nil.
    + intros a b. cbn [Base64.b64encode].
      apply Forall_cons; split; [apply Hs|]. apply Forall_cons; split; [apply Hs|].
      apply Forall_cons; split; [apply Hs|]. apply Forall_cons; split; [apply Hp|].
      by apply Forall_nil.
  - split; [apply IH1|]. split; [intros a; apply IH2|]. intros a b.
    cbn [Base64.b64encode]. apply Forall_app. split; [|exact IH0].
    apply Forall_cons; split; [apply Hs|]. apply Forall_cons; split; [apply Hs|].
    apply Forall_cons; split; [apply Hs|]. apply Forall_cons; split; [apply Hs|].
    by apply Forall_nil.
Qed.

Lemma prepare_message_content_image
    (text : option pystr) (file_data : pybytes) (mime : pystr) :
  file_data ≠ [] →
  startswith mime (py "image/") = true →
  prepare_message_content text (Some file_data) (Some mime)
    = text_parts text
        ++ [ImageUrlPart (py "data:" ++ mime ++ py ";base64," ++ Base64.b64encode file_data)].
Proof.
  intros Hf Hi.
  pose proof (startswith_nonempty _ _ image_prefix_nonempty Hi) as Hm.
  unfold prepare_message_content, text_parts, encode_file_to_base64.
  destruct file_data as [|b bs]; [done|]. destruct mime as [|c cs]; [done|].
  cbn [truthy andb from_option id]. rewrite Hi.
  assert (∀ tail : pystr, py "data:" ++ tail = 100%N :: drop 1 (py "data:") ++ tail) as E
    by (intros; reflexivity).
  rewrite E. cbn [truthy from_option id]. rewrite <- E.
  by destruct (truthy text).
Qed.

(** X6. For a non-empty file whose MIME type starts with [image/] the encoder
    always emits, after the caller's text part if any, one image part whose
    URL is [data:<mime>;base64,<payload>]; the payload has four characters
    for every three bytes, rounded up, all from the Base64 alphabet or the
    padding sign. *)
Theorem image_becomes_data_url
    (text : option pystr) (file_data : pybytes) (mime : pystr) :
  file_data ≠ [] →
  startswith mime (py "image/") = true →
  let payload := Base64.b64encode file_data in
  prepare_message_content text (Some file_data) (Some mime)
    = text_parts text ++ [ImageUrlPart (py "data:" ++ mime ++ py ";base64," ++ payload)] ∧
  length payload = (4 * ((length file_data + 2) / 3))%nat ∧
  Forall (λ c, In c Base64.alphabet ∨ c = Base64.pad) payload.
Proof.
  intros Hf Hi payload. subst payload.
  split; [by apply prepare_message_content_image|].
  split; [apply b64encode_length_gen | apply b64encode_chars_gen].
Qed.

Lemma image_becomes_data_url_witness :
  let payload := Base64.b64encode [xff; xd8; xff; xe0] in
  prepare_message_content None (Some [xff; xd8; xff; xe0]) (Some (py "image/jpeg"))
    = text_parts None
        ++ [ImageUrlPart (py "data:" ++ py "image/jpeg" ++ py ";base64," ++ payload)] ∧
  length payload = (4 * ((length [xff; xd8; xff; xe0] + 2) / 3))%nat ∧
  Forall (λ c, In c Base64.alphabet ∨ c = Base64.pad) payload.
Proof. apply image_becomes_data_url; [discriminate | reflexivity]. Defined.

(** X7. The bytes of a PDF are never read: what is sent for it depends on its
    length alone, and is the label followed by (the first 4000 characters
    of) a notice that gives the size. *)
Theorem pdf_bytes_are_not_read
    (text : option pystr) (file1 file2 : pybytes) :
  file1 ≠ [] →
  length file1 = length file2 →
  prepare_message_content text (Some file1) (Some (py "application/pdf"))
    = prepare_message_content text (Some file2) (Some (py "application/pdf")) ∧
  prepare_message_content text (Some file1) (Some (py "application/pdf"))
    = text_parts text
        ++ [TextPart (file_label (py "application/pdf")
                      ++ take 4000
                           (py "[PDF файл получен, но текст не может быть извлечен автоматически. Размер: "
                            ++ str_of_N (N.of_nat (length file1)) ++ py " байт]")
                      ++ py "...")].
Proof.
  intros H1 Hlen.
  assert (∀ file : pybytes, file ≠ [] →
            prepare_message_content text (Some file) (Some (py "application/pdf"))
            = text_parts text
                ++ [TextPart (file_label (py "application/pdf")
                              ++ take 4000 (pdf_notice file) ++ ELLIPSIS)]) as E.
  { intros file Hf. unfold prepare_message_content, text_parts, text_content.
    destruct file as [|b bs]; [done|].
    change (truthy (Some (py "application/pdf"))) with true.
    change (startswith (default [] (Some (py "application/pdf"))) (py "image/")) with false.
    cbn [truthy andb from_option id]. rewrite decide_True by done.
    by destruct (truthy text). }
  assert (file2 ≠ []) as H2 by (intros ->; by destruct file1).
  rewrite !E by done. unfold pdf_notice. rewrite Hlen. done.
Qed.

Lemma pdf_bytes_are_not_read_witness :
  prepare_message_content None (Some [x25; x50]) (Some (py "application/pdf"))
    = prepare_message_content None (Some [x00; x00]) (Some (py "application/pdf")) ∧
  prepare_message_content None (Some [x25; x50]) (Some (py "application/pdf"))
    = text_parts None
        ++ [TextPart (file_label (py "application/pdf")
                      ++ take 4000
                           (py "[PDF файл получен, но текст не может быть извлечен автоматически. Размер: "
                            ++ str_of_N (N.of_nat (length [x25; x50])) ++ py " байт]")
                      ++ py "...")].
Proof. apply pdf_bytes_are_not_read; [discriminate | reflexivity]. Defined.

Lemma run_ascii (bs : pybytes) :
  Forall (λ b, (Byte.to_N b < 128)%N) bs →
  Utf8.run Utf8.Start bs = (λ b, Some (Byte.to_N b)) <$> bs.
Proof.
  induction 1 as [|b bs Hb _ IH]; [done|].
  cbn [Utf8.run Utf8.feed fmap list_fmap]. unfold Utf8.lead.
  destruct (N.ltb_spec (Byte.to_N b) 128) as [_|]; [|lia].
  cbn [app]. by rewrite IH.
Qed.

(** X8. A file of ASCII text (not an image, not a PDF) goes through unchanged:
    the part holds the label, then the first 4000 of the file's own
    characters, then three dots. *)
Theorem ascii_text_file_is_passed_on
    (text : option pystr) (file_data : pybytes) (mime : pystr) :
  file_data ≠ [] →
  mime ≠ [] →
  startswith mime (py "image/") = false →
  mime ≠ py "application/pdf" →
  Forall (λ b, (Byte.to_N b < 128)%N) file_data →
  prepare_message_content text (Some file_data) (Some mime)
    = text_parts text
        ++ [TextPart (file_label mime ++ take 4000 (Byte.to_N <$> file_data) ++ py "...")].
Proof.
  intros Hf Hm Hi Hp Hascii.
  unfold prepare_message_content, text_parts, text_content.
  destruct file_data as [|b bs]; [done|]. destruct mime as [|c cs]; [done|].
  cbn [truthy andb from_option id]. rewrite Hi, decide_False by done.
  unfold Utf8.decode_ignore, Utf8.items. rewrite (run_ascii _ Hascii).
  assert (∀ l : pybytes,
            omap (λ i : Utf8.item, i) ((λ b, Some (Byte.to_N b)) <$> l) = Byte.to_N <$> l) as ->.
  { induction l as [|x l IH]; [done|]. cbn. by rewrite IH. }
  by destruct (truthy text).
Qed.

Lemma ascii_text_file_witness :
  prepare_message_content None (Some [x61; x2c; x62]) (Some (py "text/csv"))
    = text_parts None
        ++ [TextPart (file_label (py "text/csv")
                      ++ take 4000 (Byte.to_N <$> [x61; x2c; x62]) ++ py "...")].
Proof.
  apply ascii_text_file_is_passed_on;
    [discriminate | discriminate | reflexivity | discriminate |].
  repeat constructor.
Defined.

(** ** Running the handlers step by step *)

Lemma try_except_bind_inr {A B} (m : M A) (k : A → M B) (h : exn → M B)
    (p p' : process) (x : A) :
  m p = (inr x, p') → try_except (m ≫= k) h p = try_except (k x) h p'.
Proof. intros E. unfold try_except, mbind, M_bind. by rewrite E. Qed.

Lemma try_except_bind_inl {A B} (m : M A) (k : A → M B) (h : exn → M B)
    (p p' : process) (e : exn) :
  m p = (inl e, p') → try_except (m ≫= k) h p = h e p'.
Proof. intros E. unfold try_except, mbind, M_bind. by rewrite E. Qed.

Lemma try_except_inr {A} (m : M A) (h : exn → M A) (p p' : process) (x : A) :
  m p = (inr x, p') → try_except m h p = (inr x, p').
Proof. intros E. unfold try_except. by rewrite E. Qed.

Lemma try_except_inl {A} (m : M A) (h : exn → M A) (p p' : process) (e : exn) :
  m p = (inl e, p') → try_except m h p = h e p'.
Proof. intros E. unfold try_except. by rewrite E. Qed.

Lemma bind_inr {A B} (m : M A) (k : A → M B) (p p' : process) (x : A) :
  m p = (inr x, p') → (m ≫= k) p = k x p'.
Proof. intros E. unfold mbind, M_bind. by rewrite E. Qed.

Lemma bind_inl {A B} (m : M A) (k : A → M B) (p p' : process) (e : exn) :
  m p = (inl e, p') → (m ≫= k) p = (inl e, p').
Proof. intros E. unfold mbind, M_bind. by rewrite E. Qed.

Lemma emit_run (e : event) (p : process) : emit e p = (inr tt, logged p [e]).
Proof. reflexivity. Qed.

Lemma send_message_run chat text mode (p : process) :
  send_message chat text mode p = (inr tt, logged p [SendMessage chat text mode]).
Proof. reflexivity. Qed.

Lemma get_file_run (w : World) (id : pystr) (p : process) :
  get_file w id p = (bot_get_file w id, logged p [GetFile id]).
Proof. unfold get_file, mbind, M_bind, emit, lift, logged. done. Qed.

Lemma download_file_run (w : World) (path : option pystr) (p : process) :
  download_file w path p = (bot_download_file w path, logged p [DownloadFile path]).
Proof. unfold download_file, mbind, M_bind, emit, lift, logged. done. Qed.

Lemma logged_logged (p : process) (es1 es2 : list event) :
  logged (logged p es1) es2 = logged p (es1 ++ es2).
Proof. unfold logged. cbn [gemini_bot log]. by rewrite app_assoc. Qed.

Lemma call_gemini_api_failure_text w u text file_data mime (p : process) :
  failure (requests_post w (request_messages (gemini_bot p) u text file_data mime)) →
  call_gemini_api w u text file_data mime p
  = (inr (JStr (failure_text
                  (requests_post w (request_messages (gemini_bot p) u text file_data mime)))),
     {| gemini_bot := (get_user_context (gemini_bot p) u).2;
        log := log p ++ [Post (request_messages (gemini_bot p) u text file_data mime)] |}).
Proof.
  intros Hf. unfold call_gemini_api, try_except.
  rewrite call_gemini_api_body_unfold. cbv zeta. unfold failure_text.
  inversion Hf as [e He|resp Hs He|resp e Hs Hj He|resp body e Hs Hj Hc He].
  - unfold exception_message. by destruct (exn_kind e).
  - apply Z.eqb_neq in Hs. by rewrite Hs.
  - apply Z.eqb_eq in Hs. rewrite Hs, Hj.
    unfold exception_message. by destruct (exn_kind e).
  - apply Z.eqb_eq in Hs. rewrite Hs, Hj, Hc.
    unfold exception_message. by destruct (exn_kind e).
Qed.

Lemma success_unique r x y : success r x → success r y → x = y.
Proof.
  intros Hx Hy. inversion Hx; subst. inversion Hy; subst. congruence.
Qed.

(** A call reads the log of the process only to extend it. *)
Lemma call_gemini_api_run w u text file_data mime (p : process) :
  ∃ (v : json) (b : GeminiBot),
    (∀ es, call_gemini_api w u text file_data mime (logged p es)
           = (inr v, {| gemini_bot := b;
                        log := log p ++ es
                                 ++ [Post (request_messages (gemini_bot p) u
                                             text file_data mime)] |})) ∧
    (failure (requests_post w (request_messages (gemini_bot p) u text file_data mime)) →
       b = (get_user_context (gemini_bot p) u).2 ∧
       v = JStr (failure_text
                   (requests_post w (request_messages (gemini_bot p) u text file_data mime)))) ∧
    (∀ x, success (requests_post w (request_messages (gemini_bot p) u text file_data mime)) x →
       v = x ∧
       b = add_to_context
             (add_to_context (gemini_bot p) u (py "user")
                (Parts (prepare_message_content text file_data mime)))
             u (py "assistant") (Reply x)).
Proof.
  destruct (outcome_cases
              (requests_post w (request_messages (gemini_bot p) u text file_data mime)))
    as [Hf|[x Hs]].
  - eexists _, _. split; [|split].
    + intros es.
      rewrite (call_gemini_api_failure_text w u text file_data mime (logged p es) Hf).
      cbn [logged gemini_bot log]. rewrite <- app_assoc. reflexivity.
    + done.
    + intros x Hx. destruct (failure_not_success _ _ Hf Hx).
  - eexists x, _. split; [|split].
    + intros es. rewrite (call_gemini_api_success w u text file_data mime (logged p es) x Hs).
      cbn [logged gemini_bot log]. rewrite <- app_assoc. reflexivity.
    + intros Hf. destruct (failure_not_success _ _ Hf Hs).
    + intros y Hy. by rewrite (success_unique _ _ _ Hs Hy).
Qed.

Lemma range_nonempty (n c : nat) :
  (0 < c < n)%nat → ∃ rest, range 0 n c = 0%nat :: rest.
Proof.
  intros H. unfold range. rewrite Nat.sub_0_r.
  pose proof (ceil_div_large c ltac:(lia) n ltac:(lia)) as Hc. unfold ceil_div in Hc.
  destruct ((n + c - 1) / c)%nat as [|k]; [lia|].
  cbn [seq fmap list_fmap]. eauto.
Qed.

Lemma for_each_sends {A} (chat : Z) (g : A → result json) (h : A → json)
    (l : list A) (p : process) :
  (∀ i, g i = inr (h i)) →
  for_each l (λ i, piece ← lift (g i); send_message chat piece None) p
  = (inr tt, logged p (sends chat (h <$> l))).
Proof.
  intros Hg. revert p. induction l as [|i l IH]; intros p.
  - cbn [for_each fmap list_fmap sends]. unfold logged. rewrite app_nil_r. by destruct p.
  - cbn [for_each]. unfold mbind at 1, M_bind at 1.
    rewrite Hg, bind_lift_inr, send_message_run, IH, logged_logged. done.
Qed.

(** What [relay] does with any value: it sends at least one message, or
    it raises before sending anything. *)
Lemma relay_outcome (chat : Z) (v : json) (p : process) :
  (∃ values, values ≠ [] ∧ relay chat v p = (inr tt, logged p (sends chat values))) ∨
  (∃ e, relay chat v p = (inl e, p)).
Proof.
  pose proof MESSAGE_LIMIT_pos as Hpos. unfold relay.
  destruct v as [| | | |s|l|fields]; cbn [py_len];
    rewrite ?bind_lift_inl, ?bind_lift_inr; try (right; eauto; fail).
  - destruct (Nat.ltb_spec MESSAGE_LIMIT (length s)) as [Hlong|Hshort].
    + left. destruct (range_nonempty (length s) MESSAGE_LIMIT ltac:(lia)) as [rest E].
      eexists. split; [|apply (for_each_sends chat _
                                 (λ i, JStr (slice i (i + MESSAGE_LIMIT) s)))];
        [by rewrite E|done].
    + left. exists [JStr s]. split; [done|]. apply send_message_run.
  - destruct (Nat.ltb_spec MESSAGE_LIMIT (length l)) as [Hlong|Hshort].
    + left. destruct (range_nonempty (length l) MESSAGE_LIMIT ltac:(lia)) as [rest E].
      eexists. split; [|apply (for_each_sends chat _
                                 (λ i, JArr (slice i (i + MESSAGE_LIMIT) l)))];
        [by rewrite E|done].
    + left. exists [JArr l]. split; [done|]. apply send_message_run.
  - destruct (Nat.ltb_spec MESSAGE_LIMIT (length fields)) as [Hlong|Hshort].
    + right. destruct (range_nonempty (length fields) MESSAGE_LIMIT ltac:(lia)) as [rest ->].
      cbn [for_each py_slice]. unfold mbind at 1, M_bind at 1.
      rewrite bind_lift_inl. eauto.
    + left. exists [JObj fields]. split; [done|]. apply send_message_run.
Qed.

Lemma lift_run {A} (r : result A) (p : process) : lift r p = (r, p).
Proof. reflexivity. Qed.

Lemma logged_nil (p : process) : logged p [] = p.
Proof. destruct p. unfold logged. cbn [gemini_bot log]. by rewrite app_nil_r. Qed.

Lemma relayed_nonempty (s : pystr) : relayed s ≠ [].
Proof.
  pose proof MESSAGE_LIMIT_pos as Hpos. unfold relayed.
  destruct (Nat.ltb_spec MESSAGE_LIMIT (length s)) as [Hlong|Hshort]; [|done].
  destruct (range_nonempty (length s) MESSAGE_LIMIT ltac:(lia)) as [rest ->]. done.
Qed.

Lemma sends_inj (chat : Z) (l1 l2 : list json) :
  sends chat l1 = sends chat l2 → l1 = l2.
Proof.
  revert l2. induction l1 as [|x l1 IH]; intros [|y l2] H; try done.
  injection H as -> H. f_equal. by apply IH.
Qed.

(** The tail common to the three handlers: call the API, relay what it
    returned, and turn an exception of [relay] into one message. *)
Lemma call_and_relay_run w (chat : Z) u text file_data mime (pre : pystr)
    (p : process) (es : list event) :
  ∃ values : list json,
    values ≠ [] ∧
    try_except
      (response ← call_gemini_api w u text file_data mime; relay chat response)
      (λ e, send_message chat (JStr (pre ++ exn_str e)) None) (logged p es)
    = (inr tt,
       {| gemini_bot := gemini_bot (call_gemini_api w u text file_data mime p).2;
          log := log p ++ es
                   ++ [Post (request_messages (gemini_bot p) u text file_data mime)]
                   ++ sends chat values |}) ∧
    (∀ s, (call_gemini_api w u text file_data mime p).1 = inr (JStr s) →
          values = JStr <$> relayed s) ∧
    (∀ v e, (call_gemini_api w u text file_data mime p).1 = inr v →
            py_len v = inl e → values = [JStr (pre ++ exn_str e)]).
Proof.
  destruct (call_gemini_api_run w u text file_data mime p) as (v & b & Hrun & _ & _).
  pose proof (Hrun []) as H0. rewrite logged_nil, app_nil_l in H0.
  rewrite H0. cbn [fst snd gemini_bot].
  set (p1 := {| gemini_bot := b;
                log := log p ++ es
                         ++ [Post (request_messages (gemini_bot p) u text file_data mime)] |}).
  destruct (relay_outcome chat v p1) as [(values & Hne & Hrel)|(e & Hrel)].
  - exists values. split; [done|]. split; [|split].
    + erewrite try_except_inr; [|erewrite bind_inr; [apply Hrel | apply Hrun]].
      unfold logged, p1. cbn [gemini_bot log]. by rewrite <- !app_assoc.
    + intros s [= ->]. rewrite relay_string in Hrel.
      injection Hrel as Hrel. apply app_inv_head in Hrel.
      assert ((λ m, SendMessage chat (JStr m) None) <$> relayed s
              = (λ x, SendMessage chat x None) <$> (JStr <$> relayed s)) as E
        by (by rewrite <- list_fmap_compose).
      rewrite E in Hrel. by apply sends_inj in Hrel.
    + intros x e [= <-] Hlen. exfalso. unfold relay in Hrel.
      rewrite Hlen, bind_lift_inl in Hrel. discriminate.
  - exists [JStr (pre ++ exn_str e)]. split; [done|]. split; [|split].
    + erewrite try_except_inl; [|erewrite bind_inr; [apply Hrel | apply Hrun]].
      rewrite send_message_run. unfold logged, p1, sends. cbn [gemini_bot log fmap list_fmap].
      by rewrite <- !app_assoc.
    + intros s [= ->]. rewrite relay_string in Hrel. discriminate.
    + intros x e' [= <-] Hlen. unfold relay in Hrel.
      rewrite Hlen, bind_lift_inl in Hrel. by injection Hrel as ->.
Qed.

(** ** Completion client: further properties *)

(** X10. Whatever the outcome, a call sends exactly one request and never
    raises; the request holds the stored history followed by the new user
    turn. *)
Theorem call_posts_exactly_once
    (w : World) (u : user_id) (text : option pystr) (file_data : option pybytes)
    (mime : option pystr) (p : process) :
  let out := call_gemini_api w u text file_data mime p in
  log out.2 = log p ++ [Post (history (gemini_bot p) u
                              ++ [Turn (py "user")
                                    (Parts (prepare_message_content text file_data mime))])] ∧
  ∃ v, out.1 = inr v.
Proof.
  intros out. subst out.
  destruct (call_gemini_api_run w u text file_data mime p) as (v & b & Hrun & _ & _).
  pose proof (Hrun []) as H0. rewrite logged_nil, app_nil_l in H0.
  rewrite H0. cbn [fst snd log]. split; [done|]. eauto.
Qed.

(** X12. A reply with status 200 whose JSON object has no ["choices"] key, or
    an empty ["choices"] list, is answered with the generic error text
    naming the missing key or the index error; no history changes. *)
Theorem reply_without_choices_is_reported
    (w : World) (u : user_id) (text : option pystr) (file_data : option pybytes)
    (mime : option pystr) (p : process) (resp : Response)
    (fields : list (pystr * json)) :
  requests_post w (request_messages (gemini_bot p) u text file_data mime) = inr resp →
  status_code resp = 200 →
  response_json resp = inr (JObj fields) →
  assoc (py "choices") fields = None ∨ assoc (py "choices") fields = Some (JArr []) →
  let out := call_gemini_api w u text file_data mime p in
  out.1 = inr (JStr (py "❌ Произошла ошибка: "
                     ++ match assoc (py "choices") fields with
                        | None => py "'choices'"
                        | Some _ => py "list index out of range"
                        end)) ∧
  ∀ v, history (gemini_bot out.2) v = history (gemini_bot p) v.
Proof.
  intros Hpost H200 Hjson Hchoices out. subst out.
  assert (∃ e, first_choice_content (JObj fields) = inl e ∧ exn_kind e = OtherException ∧
               exn_str e = match assoc (py "choices") fields with
                           | None => py "'choices'"
                           | Some _ => py "list index out of range"
                           end) as (e & He & Hk & Hstr).
  { unfold first_choice_content, getitem_str.
    destruct Hchoices as [->| ->]; eexists; (split; [reflexivity|]); split; reflexivity. }
  assert (failure (requests_post w (request_messages (gemini_bot p) u text file_data mime)))
    as Hf by (rewrite Hpost; by eapply content_missing).
  rewrite (call_gemini_api_failure_text _ _ _ _ _ _ Hf). cbn [fst snd gemini_bot].
  split; [|intros v; apply history_after_get].
  rewrite Hpost. unfold failure_text. apply Z.eqb_eq in H200. rewrite H200, Hjson, He.
  unfold exception_message, generic_error_message. by rewrite Hk, Hstr.
Qed.

Lemma reply_without_choices_witness :
  let w := {| requests_post := λ _, inr {| status_code := 200;
                                           response_text := py "{}";
                                           response_json := inr (JObj []) |};
              bot_get_file := λ _, inl (Raise OtherException []);
              bot_download_file := λ _, inl (Raise OtherException []);
              mimetypes_guess_type := λ _, inr None |} in
  let p := {| gemini_bot := init; log := [] |} in
  let out := call_gemini_api w 7 (Some (py "hi")) None None p in
  out.1 = inr (JStr (py "❌ Произошла ошибка: "
                     ++ match assoc (py "choices") [] with
                        | None => py "'choices'"
                        | Some _ => py "list index out of range"
                        end)) ∧
  ∀ v, history (gemini_bot out.2) v = history (gemini_bot p) v.
Proof.
  intros w p.
  apply (reply_without_choices_is_reported w 7 (Some (py "hi")) None None p
           {| status_code := 200; response_text := py "{}"; response_json := inr (JObj []) |}
           []);
    [reflexivity | reflexivity | reflexivity | left; reflexivity].
Defined.

(** X11. A call made for one user, whatever its outcome, leaves what the store
    holds for every other user as it was. *)
Theorem call_touches_one_user
    (w : World) (u v : user_id) (text : option pystr) (file_data : option pybytes)
    (mime : option pystr) (p : process) :
  u ≠ v →
  let b := gemini_bot (call_gemini_api w u text file_data mime p).2 in
  user_contexts b !! v = user_contexts (gemini_bot p) !! v ∧
  history b v = history (gemini_bot p) v.
Proof.
  intros Hne b. subst b.
  assert (user_contexts (gemini_bot (call_gemini_api w u text file_data mime p).2) !! v
          = user_contexts (gemini_bot p) !! v) as E.
  { destruct (outcome_cases
                (requests_post w (request_messages (gemini_bot p) u text file_data mime)))
      as [Hf|[x Hs]].
    - rewrite (call_gemini_api_failure_text _ _ _ _ _ _ Hf). cbn [snd gemini_bot].
      apply (lookup_apply_op_other _ (Get u)), Hne.
    - rewrite (call_gemini_api_success _ _ _ _ _ _ _ Hs). cbn [snd gemini_bot].
      etransitivity; [apply (lookup_apply_op_other _ (Append u _ _)), Hne|].
      apply (lookup_apply_op_other _ (Append u _ _)), Hne. }
  split; [done|]. unfold history. by rewrite E.
Qed.

Lemma call_touches_one_user_witness :
  let b := gemini_bot (call_gemini_api (replying_world (py "yo")) 8 (Some (py "hi")) None None
                         {| gemini_bot := one_turn_bot; log := [] |}).2 in
  user_contexts b !! 7 = user_contexts one_turn_bot !! 7 ∧
  history b 7 = history one_turn_bot 7.
Proof.
  apply (call_touches_one_user (replying_world (py "yo")) 8 7 (Some (py "hi")) None None
           {| gemini_bot := one_turn_bot; log := [] |}).
  discriminate.
Defined.

(** X13. A failed call for a user the store has not seen leaves that user
    registered with an empty history; nobody else's entry changes. *)
Theorem failed_first_call_registers_user
    (w : World) (u : user_id) (text : option pystr) (file_data : option pybytes)
    (mime : option pystr) (p : process) :
  user_contexts (gemini_bot p) !! u = None →
  failure (requests_post w (request_messages (gemini_bot p) u text file_data mime)) →
  let b := gemini_bot (call_gemini_api w u text file_data mime p).2 in
  user_contexts b !! u = Some [] ∧
  ∀ v, v ≠ u → user_contexts b !! v = user_contexts (gemini_bot p) !! v.
Proof.
  intros Hnew Hf b. subst b.
  rewrite (call_gemini_api_failure_text _ _ _ _ _ _ Hf). cbn [snd gemini_bot].
  unfold get_user_context. rewrite Hnew. cbn [snd set_context user_contexts].
  split; [apply lookup_insert_eq|]. intros v Hv. by rewrite lookup_insert_ne.
Qed.

Lemma failed_first_call_witness :
  let p := {| gemini_bot := init; log := [] |} in
  let b := gemini_bot (call_gemini_api timeout_world 7 (Some (py "hi")) None None p).2 in
  user_contexts b !! 7 = Some [] ∧
  ∀ v, v ≠ 7 → user_contexts b !! v = user_contexts (gemini_bot p) !! v.
Proof.
  apply failed_first_call_registers_user; [apply lookup_empty | apply post_raises].
Defined.

(** X14. After a user's history is cleared, the next request holds the new
    user turn and nothing else. *)
Theorem request_after_clear_has_no_history
    (w : World) (u : user_id) (text : option pystr) (file_data : option pybytes)
    (mime : option pystr) (p : process) :
  let cleared := perform p (Forget u) in
  log (call_gemini_api w u text file_data mime cleared).2
  = log p ++ [Post [Turn (py "user")
                      (Parts (prepare_message_content text file_data mime))]].
Proof.
  intros cleared. subst cleared. cbn [perform].
  destruct (call_gemini_api_run w u text file_data mime
              {| gemini_bot := clear_context (gemini_bot p) u; log := log p |})
    as (v & b & Hrun & _ & _).
  pose proof (Hrun []) as H0. rewrite logged_nil, app_nil_l in H0.
  rewrite H0. cbn [snd log gemini_bot]. unfold request_messages.
  rewrite history_clear_context, decide_True by done. done.
Qed.

(** ** Handlers: further properties *)


(** X16. When the API's content is a value without a length ([null], a number,
    a boolean), the exchange is stored in the history as a success, and
    the user is sent the text of the [TypeError] instead of an answer. *)
Theorem reply_without_length_is_stored_and_reported
    (w : World) (message : Message) (p : process) (x : json) (e : exn) :
  let chat := chat_id message in
  let u := from_user_id message in
  let messages := request_messages (gemini_bot p) u (message_text message) None None in
  success (requests_post w messages) x →
  py_len x = inl e →
  text_handler w message p
  = (inr tt,
     {| gemini_bot :=
          add_to_context
            (add_to_context (gemini_bot p) u (py "user")
               (Parts (prepare_message_content (message_text message) None None)))
            u (py "assistant") (Reply x);
        log := log p ++ [SendChatAction chat (py "typing"); Post messages;
                         SendMessage chat (JStr (py "❌ Произошла ошибка: " ++ exn_str e))
                           None] |}).
Proof.
  intros chat u messages Hs Hlen. subst chat u messages. unfold text_handler.
  erewrite try_except_bind_inr; [|apply emit_run].
  destruct (call_and_relay_run w (chat_id message) (from_user_id message)
              (message_text message) None None TEXT_ERROR_PREFIX p
              [SendChatAction (chat_id message) (py "typing")])
    as (values & _ & Hrun & _ & Hnull).
  pose proof (call_gemini_api_success _ _ _ _ _ _ _ Hs) as Hcall.
  rewrite Hcall in Hrun, Hnull. cbn [fst snd gemini_bot] in Hrun, Hnull.
  rewrite (Hnull x e eq_refl Hlen) in Hrun. exact Hrun.
Qed.

Lemma reply_without_length_witness :
  let message := {| from_user_id := 7; chat_id := 7; message_text := Some (py "hi");
                    caption := None; document := None |} in
  let p := {| gemini_bot := init; log := [] |} in
  let messages := request_messages (gemini_bot p) 7 (message_text message) None None in
  text_handler null_content_world message p
  = (inr tt,
     {| gemini_bot :=
          add_to_context
            (add_to_context (gemini_bot p) 7 (py "user")
               (Parts (prepare_message_content (message_text message) None None)))
            7 (py "assistant") (Reply JNull);
        log := log p ++ [SendChatAction 7 (py "typing"); Post messages;
                         SendMessage 7
                           (JStr (py "❌ Произошла ошибка: "
                                  ++ exn_str (Raise OtherException
                                       (py "object of type '" ++ type_name JNull
                                        ++ py "' has no len()"))))
                           None] |}).
Proof.
  intros message p messages.
  apply (reply_without_length_is_stored_and_reported null_content_world message p JNull).
  - eapply status_200; reflexivity.
  - reflexivity.
Defined.

Lemma resolve_mime_type_run (w : World) (doc : Document) (p : process) :
  (if truthy (mime_type doc) then mret (mime_type doc)
   else lift (mimetypes_guess_type w (file_name doc))) p
  = (resolve_mime_type w doc, p).
Proof. unfold resolve_mime_type. by destruct (truthy (mime_type doc)). Qed.

(** Up to the download: an accepted document leaves the typing action and
    the metadata request in the log and goes on to download, call and
    relay. *)
Lemma document_handler_accepted_run
    (w : World) (message : Message) (doc : Document) (info : File) (mime : pystr)
    (p : process) :
  document message = Some doc →
  bot_get_file w (file_id doc) = inr info →
  accepted w doc info mime →
  document_handler w message p
  = try_except
      (file_data ← download_file w (file_path info);
       response ← call_gemini_api w (from_user_id message)
                    (Some (document_prompt message doc)) (Some file_data) (Some mime);
       relay (chat_id message) response)
      (λ e, send_message (chat_id message) (JStr (DOCUMENT_ERROR_PREFIX ++ exn_str e)) None)
      (logged p [SendChatAction (chat_id message) (py "typing"); GetFile (file_id doc)]).
Proof.
  intros Hdoc Hinfo ((size & Hsize & Hle) & Hres & Hne & Hsup).
  unfold document_handler. cbv zeta.
  erewrite try_except_bind_inr; [|apply emit_run].
  rewrite Hdoc. erewrite try_except_bind_inr; [|apply lift_run].
  erewrite try_except_bind_inr; [|rewrite get_file_run, Hinfo; reflexivity].
  rewrite Hsize. erewrite try_except_bind_inr; [|apply lift_run].
  destruct (Z.gtb_spec size MAX_DOCUMENT_SIZE) as [|_]; [lia|].
  erewrite try_except_bind_inr; [|rewrite resolve_mime_type_run, Hres; reflexivity].
  destruct mime as [|c cs]; [done|]. cbn [truthy negb from_option id].
  assert (negb (bool_decide (c :: cs ∈ SUPPORTED_DOCUMENT_TYPES))
          && negb (startswith (c :: cs) (py "text/")) = false) as ->.
  { destruct Hsup as [H| ->]; [|apply andb_false_r].
    by rewrite bool_decide_eq_true_2. }
  by rewrite logged_logged.
Qed.

(** X17. An accepted document is downloaded, sent to the API once with the
    caption (or the default prompt naming the file) and answered with at
    least one message; a string answer is relayed in pieces. *)
Theorem accepted_document_is_answered
    (w : World) (message : Message) (doc : Document) (info : File) (mime : pystr)
    (file_data : pybytes) (p : process) :
  document message = Some doc →
  bot_get_file w (file_id doc) = inr info →
  accepted w doc info mime →
  bot_download_file w (file_path info) = inr file_data →
  let chat := chat_id message in
  let u := from_user_id message in
  let prompt := Some (document_prompt message doc) in
  let out := call_gemini_api w u prompt (Some file_data) (Some mime) p in
  ∃ values : list json,
    values ≠ [] ∧
    document_handler w message p
    = (inr tt,
       {| gemini_bot := gemini_bot out.2;
          log := log p ++ [SendChatAction chat (py "typing"); GetFile (file_id doc);
                           DownloadFile (file_path info)]
                   ++ [Post (request_messages (gemini_bot p) u prompt
                               (Some file_data) (Some mime))]
                   ++ sends chat values |}) ∧
    (∀ s, out.1 = inr (JStr s) → values = JStr <$> relayed s).
Proof.
  intros Hdoc Hinfo Hacc Hdata chat u prompt out. subst chat u prompt out.
  rewrite (document_handler_accepted_run _ _ _ _ _ _ Hdoc Hinfo Hacc).
  erewrite try_except_bind_inr; [|rewrite download_file_run, Hdata; reflexivity].
  rewrite logged_logged.
  destruct (call_and_relay_run w (chat_id message) (from_user_id message)
              (Some (document_prompt message doc)) (Some file_data) (Some mime)
              DOCUMENT_ERROR_PREFIX p
              ([SendChatAction (chat_id message) (py "typing"); GetFile (file_id doc)]
                 ++ [DownloadFile (file_path info)]))
    as (values & Hne & Hrun & Hstr & _).
  exists values. split; [done|]. split; [|done]. rewrite Hrun.
  by rewrite <- !app_assoc.
Qed.

Lemma csv_accepted : accepted csv_world csv_document csv_info (py "text/csv").
Proof.
  split; [exists 3; split; [reflexivity|]; unfold MAX_DOCUMENT_SIZE; lia|].
  split; [reflexivity|]. split; [discriminate|]. right. reflexivity.
Qed.

Lemma accepted_document_witness :
  let p := {| gemini_bot := init; log := [] |} in
  let prompt := Some (document_prompt csv_message csv_document) in
  let out := call_gemini_api csv_world 7 prompt (Some [x61; x2c; x62])
               (Some (py "text/csv")) p in
  ∃ values : list json,
    values ≠ [] ∧
    document_handler csv_world csv_message p
    = (inr tt,
       {| gemini_bot := gemini_bot out.2;
          log := log p ++ [SendChatAction 7 (py "typing"); GetFile (file_id csv_document);
                           DownloadFile (file_path csv_info)]
                   ++ [Post (request_messages (gemini_bot p) 7 prompt
                               (Some [x61; x2c; x62]) (Some (py "text/csv")))]
                   ++ sends 7 values |}) ∧
    (∀ s, out.1 = inr (JStr s) → values = JStr <$> relayed s).
Proof.
  apply (accepted_document_is_answered csv_world csv_message csv_document csv_info
           (py "text/csv") [x61; x2c; x62] {| gemini_bot := init; log := [] |});
    [reflexivity | reflexivity | apply csv_accepted | reflexivity].
Defined.

(** X18. When the download of an accepted document fails, the user is sent the
    text of the exception; no request goes to the API and the store is
    untouched. *)
Theorem failed_download_is_reported
    (w : World) (message : Message) (doc : Document) (info : File) (mime : pystr)
    (e : exn) (p : process) :
  document message = Some doc →
  bot_get_file w (file_id doc) = inr info →
  accepted w doc info mime →
  bot_download_file w (file_path info) = inl e →
  document_handler w message p
  = (inr tt,
     logged p [SendChatAction (chat_id message) (py "typing");
               GetFile (file_id doc);
               DownloadFile (file_path info);
               SendMessage (chat_id message)
                 (JStr (py "❌ Ошибка при обработке файла: " ++ exn_str e)) None]).
Proof.
  intros Hdoc Hinfo Hacc Hdata.
  rewrite (document_handler_accepted_run _ _ _ _ _ _ Hdoc Hinfo Hacc).
  erewrite try_except_bind_inl; [|rewrite download_file_run, Hdata; reflexivity].
  by rewrite send_message_run, !logged_logged.
Qed.

Lemma failed_download_witness :
  document_handler broken_download_world csv_message {| gemini_bot := init; log := [] |}
  = (inr tt,
     logged {| gemini_bot := init; log := [] |}
       [SendChatAction 7 (py "typing");
        GetFile (file_id csv_document);
        DownloadFile (file_path csv_info);
        SendMessage 7
          (JStr (py "❌ Ошибка при обработке файла: "
                 ++ exn_str (Raise OtherException (py "Bad Request: file is too big"))))
          None]).
Proof.
  apply (failed_download_is_reported broken_download_world csv_message csv_document
           csv_info (py "text/csv"));
    [reflexivity | reflexivity | | reflexivity].
  split; [exists 3; split; [reflexivity|]; unfold MAX_DOCUMENT_SIZE; lia|].
  split; [reflexivity|]. split; [discriminate|]. right. reflexivity.
Defined.

(** X19. When the metadata cannot be fetched, or come without a size, the
    handler sends the text of the exception and does nothing else: no
    download, no request, no change to the store. *)
Theorem metadata_error_is_reported
    (w : World) (message : Message) (doc : Document) (e : exn) (p : process) :
  document message = Some doc →
  metadata_error w doc = Some e →
  document_handler w message p
  = (inr tt,
     logged p [SendChatAction (chat_id message) (py "typing");
               GetFile (file_id doc);
               SendMessage (chat_id message)
                 (JStr (py "❌ Ошибка при обработке файла: " ++ exn_str e)) None]).
Proof.
  intros Hdoc Herr. unfold document_handler. cbv zeta.
  erewrite try_except_bind_inr; [|apply emit_run].
  rewrite Hdoc. erewrite try_except_bind_inr; [|apply lift_run].
  unfold metadata_error in Herr.
  destruct (bot_get_file w (file_id doc)) as [e'|info] eqn:Hinfo.
  - injection Herr as ->.
    erewrite try_except_bind_inl; [|rewrite get_file_run, Hinfo; reflexivity].
    by rewrite send_message_run, !logged_logged.
  - erewrite try_except_bind_inr; [|rewrite get_file_run, Hinfo; reflexivity].
    destruct (file_size info) as [size|]; [done|]. injection Herr as <-.
    erewrite try_except_bind_inl; [|apply lift_run].
    by rewrite send_message_run, !logged_logged.
Qed.

Lemma metadata_error_witness :
  document_handler sizeless_world csv_message {| gemini_bot := init; log := [] |}
  = (inr tt,
     logged {| gemini_bot := init; log := [] |}
       [SendChatAction 7 (py "typing");
        GetFile (file_id csv_document);
        SendMessage 7
          (JStr (py "❌ Ошибка при обработке файла: "
                 ++ exn_str (Raise OtherException
                      (py "'>' not supported between instances of 'NoneType' and 'int'"))))
          None]).
Proof.
  apply (metadata_error_is_reported sizeless_world csv_message csv_document);
    reflexivity.
Defined.

Lemma photo_prompt_truthy (message : Message) : truthy (Some (photo_prompt message)) = true.
Proof.
  unfold photo_prompt. destruct (caption message) as [[|c cs]|]; reflexivity.
Qed.

(** X20. A photo is answered from its last (largest) variant: that file is
    fetched and downloaded, and one request is made whose new turn holds
    the caption (or the default question) followed by the image as a
    [data:image/jpeg;base64,] URL; then at least one message is sent. *)
Theorem photo_is_sent_as_jpeg
    (w : World) (message : Message) (photo : list PhotoSize) (largest : PhotoSize)
    (info : File) (file_data : pybytes) (p : process) :
  last photo = Some largest →
  bot_get_file w (photo_file_id largest) = inr info →
  bot_download_file w (file_path info) = inr file_data →
  file_data ≠ [] →
  let chat := chat_id message in
  let u := from_user_id message in
  let prompt := photo_prompt message in
  let out := call_gemini_api w u (Some prompt) (Some file_data) (Some (py "image/jpeg")) p in
  ∃ values : list json,
    values ≠ [] ∧
    photo_handler w message photo p
    = (inr tt,
       {| gemini_bot := gemini_bot out.2;
          log := log p ++ [SendChatAction chat (py "typing");
                           GetFile (photo_file_id largest);
                           DownloadFile (file_path info)]
                   ++ [Post (history (gemini_bot p) u
                             ++ [Turn (py "user")
                                   (Parts [TextPart prompt;
                                           ImageUrlPart
                                             (py "data:" ++ py "image/jpeg" ++ py ";base64,"
                                              ++ Base64.b64encode file_data)])])]
                   ++ sends chat values |}) ∧
    (∀ s, out.1 = inr (JStr s) → values = JStr <$> relayed s).
Proof.
  intros Hlast Hinfo Hdata Hne chat u prompt out. subst chat u out.
  unfold photo_handler. cbv zeta.
  erewrite try_except_bind_inr; [|apply emit_run].
  rewrite Hlast. erewrite try_except_bind_inr; [|apply lift_run].
  erewrite try_except_bind_inr; [|rewrite get_file_run, Hinfo; reflexivity].
  erewrite try_except_bind_inr; [|rewrite download_file_run, Hdata; reflexivity].
  rewrite !logged_logged. fold (photo_prompt message). fold prompt.
  destruct (call_and_relay_run w (chat_id message) (from_user_id message)
              (Some prompt) (Some file_data) (Some (py "image/jpeg"))
              PHOTO_ERROR_PREFIX p
              (([SendChatAction (chat_id message) (py "typing")]
                  ++ [GetFile (photo_file_id largest)])
                 ++ [DownloadFile (file_path info)]))
    as (values & Hv & Hrun & Hstr & _).
  exists values. split; [done|]. split; [|done].
  etransitivity; [exact Hrun|].
  unfold request_messages.
  rewrite (prepare_message_content_image (Some prompt) file_data (py "image/jpeg") Hne eq_refl).
  unfold text_parts. subst prompt. rewrite photo_prompt_truthy.
  cbn [from_option id app]. reflexivity.
Qed.

Lemma photo_is_sent_as_jpeg_witness :
  let p := {| gemini_bot := init; log := [] |} in
  let largest := {| photo_file_id := py "large"; width := 1280; height := 853 |} in
  let prompt := photo_prompt photo_message in
  let out := call_gemini_api csv_world 7 (Some prompt) (Some [x61; x2c; x62])
               (Some (py "image/jpeg")) p in
  ∃ values : list json,
    values ≠ [] ∧
    photo_handler csv_world photo_message two_sizes p
    = (inr tt,
       {| gemini_bot := gemini_bot out.2;
          log := log p ++ [SendChatAction 7 (py "typing");
                           GetFile (photo_file_id largest);
                           DownloadFile (file_path csv_info)]
                   ++ [Post (history (gemini_bot p) 7
                             ++ [Turn (py "user")
                                   (Parts [TextPart prompt;
                                           ImageUrlPart
                                             (py "data:" ++ py "image/jpeg" ++ py ";base64,"
                                              ++ Base64.b64encode [x61; x2c; x62])])])]
                   ++ sends 7 values |}) ∧
    (∀ s, out.1 = inr (JStr s) → values = JStr <$> relayed s).
Proof.
  apply (photo_is_sent_as_jpeg csv_world photo_message two_sizes
           {| photo_file_id := py "large"; width := 1280; height := 853 |}
           csv_info [x61; x2c; x62] {| gemini_bot := init; log := [] |});
    [reflexivity | reflexivity | reflexivity | discriminate].
Defined.

(** ** Base64 loses nothing *)

Lemma radix64 (n : N) :
  (n < 16777216)%N →
  ((((n / 262144) mod 64 * 64 + (n / 4096) mod 64) * 64 + (n / 64) mod 64) * 64
    + n mod 64 = n)%N.
Proof.
  intros Hn.
  pose proof (N.div_mod n 64 ltac:(lia)) as H1.
  pose proof (N.div_mod (n / 64) 64 ltac:(lia)) as H2.
  pose proof (N.div_mod (n / 4096) 64 ltac:(lia)) as H3.
  assert (n / 64 / 64 = n / 4096)%N as E2 by (rewrite N.div_div by lia; reflexivity).
  assert (n / 4096 / 64 = n / 262144)%N as E3 by (rewrite N.div_div by lia; reflexivity).
  rewrite E2 in H2. rewrite E3 in H3.
  assert (n / 262144 < 64)%N as Htop by (apply N.div_lt_upper_bound; lia).
  rewrite (N.mod_small (n / 262144) 64 Htop).
  lia.
Qed.

Lemma radix64_low12 (n : N) :
  (n < 16777216)%N → (n mod 4096 = 0)%N →
  (((n / 262144) mod 64 * 64 + (n / 4096) mod 64) * 4096 = n)%N.
Proof.
  intros Hn H0.
  pose proof (N.div_mod n 4096 ltac:(lia)) as H1.
  pose proof (N.div_mod (n / 4096) 64 ltac:(lia)) as H3.
  assert (n / 4096 / 64 = n / 262144)%N as E3 by (rewrite N.div_div by lia; reflexivity).
  rewrite E3 in H3.
  assert (n / 262144 < 64)%N as Htop by (apply N.div_lt_upper_bound; lia).
  rewrite (N.mod_small (n / 262144) 64 Htop).
  lia.
Qed.

Lemma radix64_low6 (n : N) :
  (n < 16777216)%N → (n mod 64 = 0)%N →
  ((((n / 262144) mod 64 * 64 + (n / 4096) mod 64) * 64 + (n / 64) mod 64) * 64 = n)%N.
Proof. intros Hn H0. pose proof (radix64 n Hn) as H. lia. Qed.

Lemma bytes_of_three (a b c : N) :
  (a < 256)%N → (b < 256)%N → (c < 256)%N →
  let n := (a * 65536 + b * 256 + c)%N in
  (n < 16777216 ∧ n / 65536 = a ∧ (n / 256) mod 256 = b ∧ n mod 256 = c)%N.
Proof.
  intros Ha Hb Hc n. subst n. split; [lia|]. split; [|split].
  - symmetry. apply (N.div_unique _ 65536 a (b * 256 + c)); lia.
  - assert ((a * 65536 + b * 256 + c) / 256 = a * 256 + b)%N as ->.
    { symmetry. apply (N.div_unique _ 256 _ c); lia. }
    symmetry. apply (N.mod_unique _ 256 a b); lia.
  - symmetry. apply (N.mod_unique _ 256 (a * 256 + b) c); lia.
Qed.

Lemma alphabet_places (i : nat) :
  (i < 64)%nat →
  b64_value (nth i Base64.alphabet Base64.pad) = N.of_nat i ∧
  (nth i Base64.alphabet Base64.pad =? Base64.pad)%N = false.
Proof.
  intros Hi.
  assert (Forall (λ i, b64_value (nth i Base64.alphabet Base64.pad) = N.of_nat i ∧
                       (nth i Base64.alphabet Base64.pad =? Base64.pad)%N = false)
                 (seq 0 64)) as H.
  { apply Forall_forall. intros j Hj. apply elem_of_seq in Hj.
    do 64 (destruct j as [|j]; [split; vm_compute; reflexivity|]). lia. }
  rewrite Forall_forall in H. apply H, elem_of_seq. lia.
Qed.

Lemma value_sextet (x : N) : b64_value (Base64.sextet x) = (x mod 64)%N.
Proof.
  pose proof (N.mod_upper_bound x 64 ltac:(lia)) as Hx. unfold Base64.sextet.
  destruct (alphabet_places (N.to_nat (x mod 64)) ltac:(lia)) as [-> _]. lia.
Qed.

Lemma sextet_not_pad (x : N) : (Base64.sextet x =? Base64.pad)%N = false.
Proof.
  pose proof (N.mod_upper_bound x 64 ltac:(lia)) as Hx. unfold Base64.sextet.
  by destruct (alphabet_places (N.to_nat (x mod 64)) ltac:(lia)) as [_ ->].
Qed.

Lemma byte_bound (a : byte) : (Byte.to_N a < 256)%N.
Proof. pose proof (Byte.to_N_bounded a). lia. Qed.

Lemma b64decode_b64encode_gen (bs : pybytes) :
  b64decode (Base64.b64encode bs) = Some bs ∧
  (∀ a, b64decode (Base64.b64encode (a :: bs)) = Some (a :: bs)) ∧
  (∀ a b, b64decode (Base64.b64encode (a :: b :: bs)) = Some (a :: b :: bs)).
Proof.
  induction bs as [|c bs (IH0 & IH1 & IH2)].
  - split; [done|]. split.
    + intros a. pose proof (byte_bound a) as Ha.
      cbn [Base64.b64encode b64decode]. rewrite N.eqb_refl.
      rewrite !value_sextet.
      destruct (bytes_of_three (Byte.to_N a) 0 0 Ha ltac:(lia) ltac:(lia))
        as (Hn & Hq & _ & _).
      rewrite N.mul_0_l, !N.add_0_r in Hn, Hq.
      rewrite radix64_low12, Hq, Byte.of_to_N; [done | done |].
      replace (Byte.to_N a * 65536)%N with (Byte.to_N a * 16 * 4096)%N by lia.
      apply N.mod_mul. lia.
    + intros a b. pose proof (byte_bound a) as Ha. pose proof (byte_bound b) as Hb.
      cbn [Base64.b64encode b64decode]. rewrite !sextet_not_pad, N.eqb_refl.
      rewrite !value_sextet.
      destruct (bytes_of_three (Byte.to_N a) (Byte.to_N b) 0 Ha Hb ltac:(lia))
        as (Hn & Hq & Hr & _).
      rewrite !N.add_0_r in Hn, Hq, Hr.
      rewrite radix64_low6, Hq, Hr, !Byte.of_to_N; [done | done |].
      replace (Byte.to_N a * 65536 + Byte.to_N b * 256)%N
        with ((Byte.to_N a * 1024 + Byte.to_N b * 4) * 64)%N by lia.
      apply N.mod_mul. lia.
  - split; [apply IH1|]. split; [intros a; apply IH2|]. intros a b.
    pose proof (byte_bound a) as Ha. pose proof (byte_bound b) as Hb.
    pose proof (byte_bound c) as Hc.
    cbn [Base64.b64encode b64decode app]. rewrite !sextet_not_pad, !value_sextet.
    destruct (bytes_of_three (Byte.to_N a) (Byte.to_N b) (Byte.to_N c) Ha Hb Hc)
      as (Hn & Hq & Hr & Hs).
    rewrite radix64, Hq, Hr, Hs, !Byte.of_to_N, IH0; done.
Qed.

(** X9. Decoding the Base64 payload gives back the file byte for byte, so two
    different files never get the same data URL under one MIME type. *)
Theorem base64_payload_determines_the_file (file1 file2 : pybytes) (mime : pystr) :
  b64decode (Base64.b64encode file1) = Some file1 ∧
  (encode_file_to_base64 file1 mime = encode_file_to_base64 file2 mime → file1 = file2).
Proof.
  split; [apply b64decode_b64encode_gen|].
  unfold encode_file_to_base64. intros H.
  assert (∀ x y : pystr, Some x = Some y → x = y) as Hsome by (intros x y [= ->]; done).
  apply Hsome in H.
  apply (app_inv_head (py "data:")), (app_inv_head mime),
        (app_inv_head (py ";base64,")) in H.
  assert (Some file1 = Some file2) as [= ->]; [|done].
  rewrite <- (proj1 (b64decode_b64encode_gen file1)),
          <- (proj1 (b64decode_b64encode_gen file2)).
  by rewrite H.
Qed.

(** ** Every update is answered *)







